(** * sync-org-repositories: a shallow embedding of [scripts/sync-org-repositories.py]

    The script propagates canonical files from the org-infra repository to the
    repositories of an organisation through forks and pull requests.  This file
    embeds its functions as Rocq definitions over an explicit world (standard
    output, network requests, git commands, the cloned working tree) and proves
    the properties the specification states about them. *)

From Stdlib Require Import ZArith String Ascii List Bool Lia.
From stdpp Require Import base option list strings gmap.

Local Open Scope Z_scope.
Local Open Scope string_scope.

(** ** Regular expressions: the fragment of Python's [re] the script uses

    The allow-list patterns are built from literal characters, [.], negated
    character sets [[^...]], the postfix [+], and the anchors [^] and [$].
    [compile] reads exactly this fragment and rejects everything else;
    [match_here] follows the semantics of [re.match] without flags:
    the match is anchored at the start of the subject but not at its end,
    [.] matches any character but a newline, a negated set matches any
    character not listed (newline included), and [$] matches at the end of the
    subject or just before a newline that ends it. *)
Module Re.

Inductive atom :=
| ALit (c : ascii)
| ADot
| ANotIn (cs : list ascii).

Inductive node :=
| NBol
| NEol
| NOne (a : atom)
| NPlus (a : atom).

Definition newline : ascii := "010"%char.

Definition atom_matches (a : atom) (c : ascii) : bool :=
  match a with
  | ALit x => Ascii.eqb x c
  | ADot => negb (Ascii.eqb c newline)
  | ANotIn cs => negb (existsb (Ascii.eqb c) cs)
  end.

Definition at_end (s : list ascii) : bool :=
  match s with
  | [] => true
  | [c] => Ascii.eqb c newline
  | _ => false
  end.

Fixpoint match_here (p : list node) (at_start : bool) (s : list ascii) : bool :=
  match p with
  | [] => true
  | NBol :: p' => at_start && match_here p' at_start s
  | NEol :: p' => at_end s && match_here p' at_start s
  | NOne a :: p' =>
      match s with
      | [] => false
      | c :: s' => atom_matches a c && match_here p' false s'
      end
  | NPlus a :: p' =>
      (fix plus (s : list ascii) : bool :=
         match s with
         | [] => false
         | c :: s' => atom_matches a c && (plus s' || match_here p' false s')
         end) s
  end.

(** The parser is a left-to-right scan with three states: outside a set,
    just after [[], and inside a negated set. *)
Inductive pstate :=
| PNormal
| PBracket
| PNegSet (cs : list ascii).

Definition unsupported (c : ascii) : bool :=
  existsb (Ascii.eqb c) (list_ascii_of_string "*?(){}|\]").

Fixpoint parse (st : pstate) (acc : list node) (s : list ascii) : option (list node) :=
  match s with
  | [] => match st with PNormal => Some (rev acc) | _ => None end
  | c :: s' =>
      match st with
      | PNormal =>
          if Ascii.eqb c "^" then parse PNormal (NBol :: acc) s'
          else if Ascii.eqb c "$" then parse PNormal (NEol :: acc) s'
          else if Ascii.eqb c "." then parse PNormal (NOne ADot :: acc) s'
          else if Ascii.eqb c "[" then parse PBracket acc s'
          else if Ascii.eqb c "+" then
            match acc with
            | NOne a :: acc' => parse PNormal (NPlus a :: acc') s'
            | _ => None
            end
          else if unsupported c then None
          else parse PNormal (NOne (ALit c) :: acc) s'
      | PBracket =>
          if Ascii.eqb c "^" then parse (PNegSet []) acc s' else None
      | PNegSet cs =>
          if Ascii.eqb c "]" then
            match cs with
            | [] => parse (PNegSet [c]) acc s'
            | _ => parse PNormal (NOne (ANotIn (rev cs)) :: acc) s'
            end
          else if Ascii.eqb c "\" then None
          else parse (PNegSet (c :: cs)) acc s'
      end
  end.

Definition compile (pattern : string) : option (list node) :=
  parse PNormal [] (list_ascii_of_string pattern).

(** [re.match(pattern, subject)] as a truth value.  A pattern outside the
    fragment has no compiled form; none of the script's patterns is. *)
Definition re_match (pattern subject : string) : bool :=
  match compile pattern with
  | Some p => match_here p true (list_ascii_of_string subject)
  | None => false
  end.

End Re.

(** ** Remote gateway: the allow-list *)

Definition GITHUB_API : string := "https://api.github.com".

Definition allowed_patterns : list (string * string) :=
  [ ("^" ++ GITHUB_API ++ "/user$", "GET");
    ("^" ++ GITHUB_API ++ "/repos/[^/]+/[^/]+$", "GET");
    ("^" ++ GITHUB_API ++ "/repos/[^/]+/[^/]+/forks$", "POST");
    ("^" ++ GITHUB_API ++ "/repos/[^/]+/[^/]+/pulls$", "POST");
    ("^" ++ GITHUB_API ++ "/repos/[^/]+/[^/]+/git/refs/heads/.+$", "DELETE") ].

Definition validate_github_api_request (endpoint method : string) : bool :=
  existsb (fun '(pattern, allowed_method) =>
             Re.re_match pattern endpoint && String.eqb method allowed_method)
          allowed_patterns.

(** ** Data model *)

(** A JSON object as the script reads it: string keys, string values. *)
Definition dict := list (string * string).

Fixpoint dict_get (d : dict) (key : string) : option string :=
  match d with
  | [] => None
  | (k, v) :: d' => if String.eqb k key then Some v else dict_get d' key
  end.

(** One entry of [files_to_sync]; [destination] and [exclude_repos] are
    optional keys. *)
Record FileConfig := {
  fc_source : string;
  fc_destination : option string;
  fc_exclude_repos : option (list string)
}.

(** The sync configuration; both keys may be absent from the document. *)
Record Config := {
  cfg_files_to_sync : option (list FileConfig);
  cfg_exclude_repos : option (list string)
}.

(** The peribolos document: [orgs.<org>.repos.<name>]; only the keys are
    read, in document order. *)
Record OrgData := { org_repos : option (list string) }.
Record Peribolos := { orgs : option (list (string * OrgData)) }.

Record Args := {
  arg_org : string;
  arg_config : string;
  arg_dry_run : bool;
  arg_repos : option (list string)
}.

(** ** Exceptions and outcomes *)

Inductive exn :=
| CalledProcessError
| GitCommandError
| RequestException (msg : string)
| OSError
| OtherError (name : string).

(** What a collaborator answers: a value, or an exception it raises. *)
Inductive result (A : Type) :=
| Ok (a : A)
| Err (e : exn).
Arguments Ok {A} a.
Arguments Err {A} e.

(** How a computation of the script ends: it returns, it raises an exception
    (all of them instances of [Exception]), or it leaves through [sys.exit],
    which no [except Exception] catches. *)
Inductive outcome (A : Type) :=
| Ret (a : A)
| Raise (e : exn)
| Exit (code : Z).
Arguments Ret {A} a.
Arguments Raise {A} e.
Arguments Exit {A} code.

Definition of_result {A} (r : result A) : outcome A :=
  match r with
  | Ok a => Ret a
  | Err e => Raise e
  end.

(** ** The world the script acts on *)

Record Request := {
  rq_method : string;
  rq_url : string;
  rq_json : option dict
}.

Record Response := {
  status_code : Z;
  json_body : option dict;      (* [None]: the body is not JSON *)
  text : string
}.

Inductive git_cmd :=
| GitClone (url : string)
| GitRemoteSetUrl (name url : string)
| GitRemoteAdd (name url : string)
| GitFetch (remote : string)
| GitCheckout (branch : string)
| GitCheckoutNew (branch : string)
| GitResetHard (ref : string)
| GitAdd (path : string)
| GitCommit (message : string)
| GitPush (remote branch : string).

(** Lines of standard output, one constructor per [print] of the script. *)
Inductive log_line :=
| LogNotAllowed (endpoint method : string)
| LogApiRequestFailed (msg : string)
| LogAuthFailed (status : Z)
| LogCreatingFork (org repo : string)
| LogForkCreated
| LogForkAlreadyExists
| LogForkCreateFailed (status : Z)
| LogFoundRepositories (n : nat) (org : string)
| LogIsUpToDate (path : string)
| LogNeedsUpdate (path : string)
| LogIsMissing (path : string)
| LogPushedBranch (branch : string)
| LogGitFailed
| LogPullRequestCreated (url : string)
| LogPullRequestFailed (status : Z) (msg : string)
| LogProcessing (org repo : string)
| LogNoFilesConfigured
| LogForkFailedSkipping (repo : string)
| LogForkExists (owner repo : string)
| LogDryRunWouldClone (url : string)
| LogCloning (url : string)
| LogAddedUpstream
| LogSyncedWithUpstream
| LogUpstreamSyncWarning
| LogSourceNotFound (path : string)
| LogExcluded (path : string)
| LogDryRunWouldAdd (path : string)
| LogDryRunWouldUpdate (path : string)
| LogAllUpToDate (repo : string)
| LogDryRunWouldCreatePR (n : nat)
| LogCreatingBranch
| LogCreatingPR
| LogErrorProcessing (repo : string)
| LogUnexpectedError (repo : string)
| LogNoToken
| LogNoUser
| LogAuthenticatedAs (user : string)
| LogNoRepositories
| LogFiltering (n : nat)
| LogDryRunBanner
| LogWillProcess (n : nat)
| LogFailedToProcess (repo : string)
| LogSummary (succeeded total : nat).

(** The working tree of a clone maps a path relative to the clone's root to the
    bytes of the file; [os.path.join(repo_path, p)] addresses entry [p], one
    spelling per file.  Event lists are kept newest first. *)
Record World := {
  w_out : list log_line;          (* standard output *)
  w_net : list Request;           (* requests issued with [requests.request] *)
  w_git : list (string * git_cmd);(* git commands run, with their directory *)
  w_slept : list Z;               (* [time.sleep] calls *)
  w_tmp : nat;                    (* temporary directories created so far *)
  w_tree : gmap string string;    (* working tree of the current clone *)
  w_writes : list string          (* destinations written by [shutil.copy2] *)
}.

(** The behaviour of the collaborators, fixed for a run. *)
Record Env := {
  e_token : option string;                          (* GITHUB_TOKEN / GITHUB_PAT *)
  e_http : Request -> result Response;              (* the remote API *)
  e_git : string -> git_cmd -> gmap string string -> result (gmap string string);
  e_mkdtemp : nat -> result string;                 (* tempfile.TemporaryDirectory *)
  e_source : gmap string string;                    (* files under [source_root] *)
  e_now : string -> string;                         (* timestamp, %Y%m%d%H%M%S *)
  e_config : string -> result Config;               (* yaml.safe_load of the config *)
  e_peribolos : string -> option Peribolos          (* peribolos.yaml of the org *)
}.

(** ** A state-and-exception monad *)

Definition M (A : Type) : Type := World -> outcome A * World.

Definition ret {A} (a : A) : M A := fun w => (Ret a, w).

Definition raise {A} (e : exn) : M A := fun w => (Raise e, w).

Definition bind {A B} (m : M A) (k : A -> M B) : M B :=
  fun w =>
    match m w with
    | (Ret a, w') => k a w'
    | (Raise e, w') => (Raise e, w')
    | (Exit code, w') => (Exit code, w')
    end.

Declare Scope io_scope.
Delimit Scope io_scope with io.
Notation "x <~ m ; k" := (bind m (fun x => k))
  (at level 20, m at level 100, k at level 200, only parsing) : io_scope.
Notation "' x <~ m ; k" := (bind m (fun x => k))
  (at level 20, x pattern, m at level 100, k at level 200, only parsing) : io_scope.
Notation "m ;;; k" := (bind m (fun _ => k))
  (at level 100, k at level 200, only parsing, right associativity) : io_scope.
Local Open Scope io_scope.

(** [try: body except ...]: the handler chooses, per exception, whether it
    catches. *)
Definition try_except {A} (body : M A) (handler : exn -> option (M A)) : M A :=
  fun w =>
    match body w with
    | (Raise e, w') =>
        match handler e with
        | Some h => h w'
        | None => (Raise e, w')
        end
    | r => r
    end.

Definition print (l : log_line) : M unit :=
  fun w => (Ret tt,
            {| w_out := l :: w_out w; w_net := w_net w; w_git := w_git w;
               w_slept := w_slept w; w_tmp := w_tmp w; w_tree := w_tree w;
               w_writes := w_writes w |}).

Definition time_sleep (n : Z) : M unit :=
  fun w => (Ret tt,
            {| w_out := w_out w; w_net := w_net w; w_git := w_git w;
               w_slept := n :: w_slept w; w_tmp := w_tmp w; w_tree := w_tree w;
               w_writes := w_writes w |}).

Definition count_tmpdir (w : World) : World :=
  {| w_out := w_out w; w_net := w_net w; w_git := w_git w;
     w_slept := w_slept w; w_tmp := S (w_tmp w); w_tree := w_tree w;
     w_writes := w_writes w |}.

Definition set_tree (t : gmap string string) (w : World) : World :=
  {| w_out := w_out w; w_net := w_net w; w_git := w_git w;
     w_slept := w_slept w; w_tmp := w_tmp w; w_tree := t;
     w_writes := w_writes w |}.

Section Script.

Variable env : Env.

(** [requests.request]: the call is recorded, the remote answers. *)
Definition requests_request (rq : Request) : M Response :=
  fun w => (of_result (e_http env rq),
            {| w_out := w_out w; w_net := rq :: w_net w; w_git := w_git w;
               w_slept := w_slept w; w_tmp := w_tmp w; w_tree := w_tree w;
               w_writes := w_writes w |}).

(** A git command run in directory [cwd]: recorded, and on success the
    working tree is what git leaves behind. *)
Definition run_git (cwd : string) (cmd : git_cmd) : M unit :=
  fun w =>
    let w' := {| w_out := w_out w; w_net := w_net w; w_git := (cwd, cmd) :: w_git w;
                 w_slept := w_slept w; w_tmp := w_tmp w; w_tree := w_tree w;
                 w_writes := w_writes w |} in
    match e_git env cwd cmd (w_tree w) with
    | Ok t => (Ret tt, set_tree t w')
    | Err e => (Raise e, w')
    end.

(** ** Remote gateway *)

Definition github_api_request (endpoint method : string) (data : option dict)
  : M (Z * dict) :=
  if negb (validate_github_api_request endpoint method) then
    print (LogNotAllowed endpoint method);;;
    ret (403, [("error", "Endpoint not allowed")])
  else
    try_except
      (response <~
         requests_request {| rq_method := method; rq_url := endpoint; rq_json := data |};
       let response_data :=
         match json_body response with
         | Some d => d
         | None => [("raw", text response)]
         end in
       ret (status_code response, response_data))
      (fun e =>
         match e with
         | RequestException msg =>
             Some (print (LogApiRequestFailed msg);;; ret (500, [("error", msg)]))
         | _ => None
         end).

Definition get_authenticated_user : M (option string) :=
  let url := GITHUB_API ++ "/user" in
  '(status, data) <~ github_api_request url "GET" None;
  if (status =? 200)%Z then ret (dict_get data "login")
  else print (LogAuthFailed status);;; ret None.

(** The script returns [True] on 200 and falls off the end ([None], falsy)
    otherwise; the result is only ever tested for truth. *)
Definition check_fork_exists (org repo_name fork_owner : string) : M bool :=
  let url := GITHUB_API ++ "/repos/" ++ fork_owner ++ "/" ++ repo_name in
  '(status, _) <~ github_api_request url "GET" None;
  if (status =? 200)%Z then ret true else ret false.

Definition create_fork (org repo_name : string) : M bool :=
  print (LogCreatingFork org repo_name);;;
  let url := GITHUB_API ++ "/repos/" ++ org ++ "/" ++ repo_name ++ "/forks" in
  '(status, data) <~ github_api_request url "POST" (Some []);
  if (status =? 202)%Z then
    print LogForkCreated;;;
    time_sleep 5;;;
    ret true
  else if (status =? 200)%Z then
    print LogForkAlreadyExists;;;
    ret true
  else
    print (LogForkCreateFailed status);;;
    ret false.

Definition delete_fork_branch (fork_owner repo_name branch_name : string) : M bool :=
  '(status, _) <~
    github_api_request
      ("/repos/" ++ fork_owner ++ "/" ++ repo_name ++ "/git/refs/heads/" ++ branch_name)
      "DELETE" None;
  ret (status =? 204)%Z.

(** ** Repository catalog *)

(** Cloning the organisation's [.github] repository and reading
    [peribolos.yaml] is the environment's part: it answers with the document,
    or with nothing when the clone fails or the file is missing, and then the
    function leaves with [sys.exit(1)]. *)
Definition fetch_peribolos_file (org : string) : M Peribolos :=
  fun w =>
    match e_peribolos env org with
    | Some peribolos_data => (Ret peribolos_data, w)
    | None => (Exit 1, w)
    end.

Fixpoint assoc_get {V} (d : list (string * V)) (key : string) : option V :=
  match d with
  | [] => None
  | (k, v) :: d' => if String.eqb k key then Some v else assoc_get d' key
  end.

Definition extract_repositories (peribolos_data : Peribolos) (org : string)
  : M (list string) :=
  let repos :=
    match orgs peribolos_data with
    | Some all_orgs =>
        match assoc_get all_orgs org with
        | Some org_data =>
            match org_repos org_data with
            | Some names => names
            | None => []
            end
        | None => []
        end
    | None => []
    end in
  print (LogFoundRepositories (List.length repos) org);;;
  ret repos.

(** ** File reconciler

    Source files are addressed by their path relative to [source_root],
    destination files by their path relative to the clone. *)

Definition source_exists (source_path : string) : bool :=
  bool_decide (is_Some (e_source env !! source_path)).

Definition os_path_exists (dest_path : string) : M bool :=
  fun w => (Ret (bool_decide (is_Some (w_tree w !! dest_path))), w).

(** [filecmp.cmp(source_file, dest_file, shallow=False)]: byte equality;
    reading a source that is not there raises. *)
Definition filecmp_cmp (source_file dest_file : string) : M bool :=
  fun w =>
    match e_source env !! source_file, w_tree w !! dest_file with
    | Some s, Some d => (Ret (bool_decide (s = d)), w)
    | _, _ => (Raise OSError, w)
    end.

Definition compare_files (source_file dest_file : string) : M bool :=
  dest_exists <~ os_path_exists dest_file;
  if negb dest_exists then ret false
  else filecmp_cmp source_file dest_file.

(** [shutil.copy2]: the destination takes the bytes of the source. *)
Definition shutil_copy2 (source_path dest_path : string) : M unit :=
  fun w =>
    match e_source env !! source_path with
    | Some s =>
        (Ret tt,
         {| w_out := w_out w; w_net := w_net w; w_git := w_git w;
            w_slept := w_slept w; w_tmp := w_tmp w;
            w_tree := <[dest_path := s]> (w_tree w);
            w_writes := dest_path :: w_writes w |})
    | None => (Raise OSError, w)
    end.

(** [os.makedirs] of the parent directory leaves the files of the tree as
    they are; directories are implicit in the paths. *)
Definition sync_file (source_path dest_path relative_path : string) : M bool :=
  dest_exists <~ os_path_exists dest_path;
  if dest_exists then
    same <~ compare_files source_path dest_path;
    if same then
      print (LogIsUpToDate relative_path);;;
      ret false
    else
      print (LogNeedsUpdate relative_path);;;
      shutil_copy2 source_path dest_path;;;
      ret true
  else
    print (LogIsMissing relative_path);;;
    shutil_copy2 source_path dest_path;;;
    ret true.

(** ** Git operations *)

Definition token_text : string := default "None" (e_token env).

Definition setup_git_credentials (repo_path fork_owner repo_name : string) : M unit :=
  let fork_url :=
    "https://x-access-token:" ++ token_text ++ "@github.com/" ++ fork_owner
      ++ "/" ++ repo_name ++ ".git" in
  try_except
    (run_git repo_path (GitRemoteSetUrl "origin" fork_url))
    (fun _ => Some (run_git repo_path (GitRemoteAdd "origin" fork_url))).

Fixpoint git_add_each (repo_path : string) (files_changed : list string) : M unit :=
  match files_changed with
  | [] => ret tt
  | file_path :: rest =>
      run_git repo_path (GitAdd file_path);;;
      git_add_each repo_path rest
  end.

Definition create_branch_and_commit (repo_path branch_name : string)
    (files_changed : list string) (commit_message : string) : M bool :=
  try_except
    (run_git repo_path (GitCheckoutNew branch_name);;;
     git_add_each repo_path files_changed;;;
     run_git repo_path (GitCommit commit_message);;;
     run_git repo_path (GitPush "origin" branch_name);;;
     print (LogPushedBranch branch_name);;;
     ret true)
    (fun e =>
       match e with
       | GitCommandError => Some (print LogGitFailed;;; ret false)
       | _ => None
       end).

Definition create_pull_request (org repo_name fork_owner branch_name title body
    base_branch : string) : M bool :=
  let data :=
    [ ("title", title); ("body", body); ("base", base_branch);
      ("head", fork_owner ++ ":" ++ branch_name) ] in
  '(status, response_data) <~
    github_api_request (GITHUB_API ++ "/repos/" ++ org ++ "/" ++ repo_name ++ "/pulls")
      "POST" (Some data);
  if (status =? 201)%Z then
    print (LogPullRequestCreated (default "" (dict_get response_data "html_url")));;;
    ret true
  else
    print (LogPullRequestFailed status
             (default "Unknown error" (dict_get response_data "message")));;;
    ret false.

(** ** Contribution driver *)

Definition nl : string := String Re.newline "".

(** [os.path.join] of two components. *)
Definition os_path_join (a b : string) : string :=
  if String.prefix "/" b then b
  else if String.eqb a "" then b
  else if String.eqb (String.substring (String.length a - 1) 1 a) "/" then a ++ b
  else a ++ "/" ++ b.

(** [with tempfile.TemporaryDirectory() as tmpdir]: the directory is removed,
    and the clone with it, on every way out of the block. *)
Definition with_temporary_directory {A} (body : string -> M A) : M A :=
  fun w =>
    match e_mkdtemp env (w_tmp w) with
    | Err e => (Raise e, w)
    | Ok tmpdir =>
        let '(r, w') := body tmpdir (count_tmpdir w) in
        (r, set_tree ∅ w')
    end.

Definition excluded_for (repo_name : string) (file_config : FileConfig) : bool :=
  match fc_exclude_repos file_config with
  | Some names => bool_decide (repo_name ∈ names)
  | None => false
  end.

(** One turn of the loop over [files_to_sync] (Step 3); [files_changed] is the
    list built so far and the result is the list after the turn. *)
Definition process_file (repo_name : string) (dry_run : bool)
    (files_changed : list string) (file_config : FileConfig) : M (list string) :=
  let source_rel_path := fc_source file_config in
  let dest_rel_path := default source_rel_path (fc_destination file_config) in
  let source_path := source_rel_path in
  let dest_path := dest_rel_path in
  if negb (source_exists source_path) then
    print (LogSourceNotFound source_rel_path);;;
    ret files_changed
  else if excluded_for repo_name file_config then
    print (LogExcluded source_rel_path);;;
    ret files_changed
  else if dry_run then
    dest_exists <~ os_path_exists dest_path;
    if negb dest_exists then
      print (LogDryRunWouldAdd dest_rel_path);;;
      ret (files_changed ++ [dest_rel_path])%list
    else
      same <~ compare_files source_path dest_path;
      if negb same then
        print (LogDryRunWouldUpdate dest_rel_path);;;
        ret (files_changed ++ [dest_rel_path])%list
      else
        print (LogIsUpToDate dest_rel_path);;;
        ret files_changed
  else
    copied <~ sync_file source_path dest_path dest_rel_path;
    if copied then ret (files_changed ++ [dest_rel_path])%list
    else ret files_changed.

Fixpoint process_files (repo_name : string) (dry_run : bool)
    (files_to_sync : list FileConfig) (files_changed : list string)
  : M (list string) :=
  match files_to_sync with
  | [] => ret files_changed
  | file_config :: rest =>
      files_changed' <~ process_file repo_name dry_run files_changed file_config;
      process_files repo_name dry_run rest files_changed'
  end.

(** Step 1: make sure the fork exists (skipped in a dry run).  The result is
    [false] where the script returns [False] from [sync_repository]. *)
Definition ensure_fork (org repo_name fork_owner : string) (dry_run : bool) : M bool :=
  if negb dry_run then
    fork_exists <~ check_fork_exists org repo_name fork_owner;
    if negb fork_exists then
      created <~ create_fork org repo_name;
      if negb created then
        print (LogForkFailedSkipping repo_name);;;
        ret false
      else ret true
    else
      print (LogForkExists fork_owner repo_name);;;
      ret true
  else ret true.

(** Step 2: clone, and outside a dry run point origin at the fork and bring
    the clone to upstream's main. *)
Definition acquire_working_tree (tmpdir org repo_name fork_owner : string)
    (dry_run : bool) : M string :=
  let fork_url := "https://github.com/" ++ fork_owner ++ "/" ++ repo_name ++ ".git" in
  let upstream_url := "https://github.com/" ++ org ++ "/" ++ repo_name ++ ".git" in
  (if dry_run then print (LogDryRunWouldClone fork_url) else ret tt);;;
  let clone_url := if dry_run then upstream_url else fork_url in
  print (LogCloning clone_url);;;
  run_git tmpdir (GitClone clone_url);;;
  let repo_path := os_path_join tmpdir repo_name in
  (if negb dry_run then
     setup_git_credentials repo_path fork_owner repo_name;;;
     try_except
       (run_git repo_path (GitRemoteAdd "upstream" upstream_url);;;
        print LogAddedUpstream)
       (fun _ => Some (ret tt));;;
     try_except
       (run_git repo_path (GitFetch "upstream");;;
        run_git repo_path (GitCheckout "main");;;
        run_git repo_path (GitResetHard "upstream/main");;;
        print LogSyncedWithUpstream)
       (fun e =>
          match e with
          | GitCommandError => Some (print LogUpstreamSyncWarning)
          | _ => None
          end)
   else ret tt);;;
  ret repo_path.

Definition commit_message_of (files_changed : list string) : string :=
  "chore: sync repository standards" ++ nl ++ nl ++ "Updated files:" ++ nl
    ++ String.concat nl (map (fun f => "- " ++ f) files_changed).

Definition pr_body_of (files_changed : list string) : string :=
  "This PR synchronizes repository standards from org-infra." ++ nl ++ nl
    ++ "## Files Updated" ++ nl
    ++ String.concat nl (map (fun f => "- `" ++ f ++ "`") files_changed) ++ nl ++ nl
    ++ "## Description" ++ nl
    ++ "This is an automated PR to ensure repository settings are consistent across the organization."
    ++ nl ++ nl ++ "---" ++ nl
    ++ "*This PR was automatically generated by the sync_org_repositories workflow.*"
    ++ nl.

(** What follows the loop: the verdict on an empty change list, the dry-run
    short circuit, then Steps 4 and 5. *)
Definition publish_changes (org repo_name fork_owner repo_path : string)
    (dry_run : bool) (files_changed : list string) : M bool :=
  match files_changed with
  | [] =>
      print (LogAllUpToDate repo_name);;;
      ret true
  | _ =>
      if dry_run then
        print (LogDryRunWouldCreatePR (List.length files_changed));;;
        ret true
      else
        let branch_name := "sync-repo-standards-" ++ e_now env repo_name in
        let commit_message := commit_message_of files_changed in
        print LogCreatingBranch;;;
        pushed <~ create_branch_and_commit repo_path branch_name files_changed
                    commit_message;
        if negb pushed then ret false
        else
          let pr_title := "chore: sync repository standards" in
          let pr_body := pr_body_of files_changed in
          print LogCreatingPR;;;
          create_pull_request org repo_name fork_owner branch_name pr_title pr_body
            "main"
  end.

Definition sync_repository (org repo_name fork_owner : string) (config : Config)
    (dry_run : bool) : M bool :=
  print (LogProcessing org repo_name);;;
  let files_to_sync := default [] (cfg_files_to_sync config) in
  match files_to_sync with
  | [] =>
      print LogNoFilesConfigured;;;
      ret false
  | _ =>
      fork_ready <~ ensure_fork org repo_name fork_owner dry_run;
      if negb fork_ready then ret false
      else
        with_temporary_directory (fun tmpdir =>
          try_except
            (repo_path <~ acquire_working_tree tmpdir org repo_name fork_owner dry_run;
             files_changed <~ process_files repo_name dry_run files_to_sync [];
             publish_changes org repo_name fork_owner repo_path dry_run files_changed)
            (fun e =>
               match e with
               | CalledProcessError =>
                   Some (print (LogErrorProcessing repo_name);;; ret false)
               | _ =>
                   Some (print (LogUnexpectedError repo_name);;; ret false)
               end))
  end.

(** ** Batch runner *)

Definition sys_exit {A} (code : Z) : M A := fun w => (Exit code, w).

Definition load_sync_config (config_path : string) : M Config :=
  fun w => (of_result (e_config env config_path), w).

(** [args.repos] filters only when it is a non-empty list. *)
Definition filter_requested (requested : option (list string))
    (repositories : list string) : list string :=
  match requested with
  | Some ((_ :: _) as names) => filter (fun r => bool_decide (r ∈ names)) repositories
  | _ => repositories
  end.

Definition filter_excluded (config : Config) (repositories : list string)
  : list string :=
  let excluded_repos := default ["org-infra"] (cfg_exclude_repos config) in
  filter (fun r => negb (bool_decide (r ∈ excluded_repos))) repositories.

(** The repositories the loop of [main] runs over. *)
Definition repositories_to_process (config : Config) (requested : option (list string))
    (repositories : list string) : list string :=
  filter_excluded config (filter_requested requested repositories).

(** The loop of [main]: one guarded call of [sync_repository] per repository. *)
Fixpoint sync_each (org fork_owner : string) (config : Config) (dry_run : bool)
    (repositories : list string) (success_count : nat) : M nat :=
  match repositories with
  | [] => ret success_count
  | repo_name :: rest =>
      success_count' <~
        try_except
          (ok <~ sync_repository org repo_name fork_owner config dry_run;
           if ok then ret (S success_count) else ret success_count)
          (fun _ => Some (print (LogFailedToProcess repo_name);;; ret success_count));
      sync_each org fork_owner config dry_run rest success_count'
  end.

Definition token_missing : bool :=
  match e_token env with
  | None => true
  | Some t => String.eqb t ""
  end.

Definition main (args : Args) : M unit :=
  if token_missing then
    print LogNoToken;;;
    sys_exit 1
  else
    user <~ get_authenticated_user;
    match user with
    | None | Some "" =>
        print LogNoUser;;;
        sys_exit 1
    | Some fork_owner =>
        print (LogAuthenticatedAs fork_owner);;;
        config <~ load_sync_config (arg_config args);
        peribolos_data <~ fetch_peribolos_file (arg_org args);
        repositories <~ extract_repositories peribolos_data (arg_org args);
        match repositories with
        | [] =>
            print LogNoRepositories;;;
            sys_exit 0
        | _ =>
            let repositories := filter_requested (arg_repos args) repositories in
            (match arg_repos args with
             | Some (_ :: _) => print (LogFiltering (List.length repositories))
             | _ => ret tt
             end);;;
            let repositories := filter_excluded config repositories in
            (if arg_dry_run args then print LogDryRunBanner else ret tt);;;
            print (LogWillProcess (List.length repositories));;;
            success_count <~
              sync_each (arg_org args) fork_owner config (arg_dry_run args)
                repositories 0%nat;
            print (LogSummary success_count (List.length repositories))
        end
    end.

End Script.

(** ** Sample collaborators, used to run the script on concrete inputs *)

Definition empty_world : World :=
  {| w_out := []; w_net := []; w_git := []; w_slept := []; w_tmp := 0%nat;
     w_tree := ∅; w_writes := [] |}.

Definition response_of (status : Z) : Response :=
  {| status_code := status; json_body := Some [("login", "bot")]; text := "{}" |}.

Definition no_config : Config :=
  {| cfg_files_to_sync := None; cfg_exclude_repos := None |}.

(** A git that always succeeds and clones the given tree, a remote that
    answers as [http] says, the given source files, configuration and
    manifest. *)
Definition sample_env (http : Request -> result Response)
    (source cloned : gmap string string) (config : Config)
    (peribolos : option Peribolos) : Env :=
  {| e_token := Some "secret";
     e_http := http;
     e_git := fun _ cmd t => match cmd with GitClone _ => Ok cloned | _ => Ok t end;
     e_mkdtemp := fun n => Ok "/tmp/sync";
     e_source := source;
     e_now := fun _ => "20240101000000";
     e_config := fun _ => Ok config;
     e_peribolos := fun _ => peribolos |}.

(** A remote that answers every request with the same status. *)
Definition plain_env (status : Z) (source cloned : gmap string string) : Env :=
  sample_env (fun _ => Ok (response_of status)) source cloned no_config None.

(** A remote that answers 200, except that asking for [bad_url] raises an
    exception that is not a [RequestException]. *)
Definition raising_env (bad_url : string) (source cloned : gmap string string) : Env :=
  sample_env
    (fun rq => if String.eqb (rq_url rq) bad_url
               then Err (OtherError "ValueError")
               else Ok (response_of 200))
    source cloned no_config None.

Definition codeowners_rule : FileConfig :=
  {| fc_source := "CODEOWNERS"; fc_destination := None; fc_exclude_repos := None |}.

Definition codeowners_config (excluded : option (list string)) : Config :=
  {| cfg_files_to_sync := Some [codeowners_rule]; cfg_exclude_repos := excluded |}.

Definition codeowners_tree : gmap string string :=
  {[ "CODEOWNERS" := "* @org/maintainers" ]}.

(** * Vocabulary of the properties *)

(** The compiled pattern begins with [^] followed by the literal [c]. *)
Definition starts_with_literal (c : ascii) (p : option (list Re.node)) : bool :=
  match p with
  | Some (Re.NBol :: Re.NOne (Re.ALit x) :: _) => Ascii.eqb x c
  | _ => false
  end.

(** ** Relations every step of a computation keeps

    [keeps R m] says that running [m] from any world [w] ends in a world
    related to [w]; for a preorder [R] the property passes through [bind]
    and [try_except]. *)
Definition keeps {A} (R : World -> World -> Prop) (m : M A) : Prop :=
  forall w, R w (snd (m w)).

(** The part of the world the gateway and the fork manager leave alone. *)
Definition same_checkout (w w' : World) : Prop :=
  w_git w' = w_git w /\ w_tmp w' = w_tmp w /\ w_tree w' = w_tree w
  /\ w_writes w' = w_writes w.

(** ** The file reconciler as a function of the trees

    A rule is [active] when its source exists and it does not exclude the
    repository; an active rule is [stale] in a tree when the destination is
    missing there or differs from the source.  One turn of the loop appends
    the destination of a stale rule and, outside a dry run, copies the source
    over it. *)

Definition dest_of (fc : FileConfig) : string :=
  default (fc_source fc) (fc_destination fc).

Definition active (env : Env) (repo_name : string) (fc : FileConfig) : bool :=
  source_exists env (fc_source fc) && negb (excluded_for repo_name fc).

Definition stale (env : Env) (repo_name : string) (t : gmap string string)
    (fc : FileConfig) : bool :=
  active env repo_name fc
  && negb (bool_decide (t !! dest_of fc = e_source env !! fc_source fc)).

Definition copied (env : Env) (t : gmap string string) (fc : FileConfig)
  : gmap string string :=
  match e_source env !! fc_source fc with
  | Some s => <[dest_of fc := s]> t
  | None => t
  end.

Definition step_changed (env : Env) (repo_name : string) (t : gmap string string)
    (acc : list string) (fc : FileConfig) : list string :=
  if stale env repo_name t fc then (acc ++ [dest_of fc])%list else acc.

Definition step_tree (env : Env) (repo_name : string) (dry_run : bool)
    (t : gmap string string) (fc : FileConfig) : gmap string string :=
  if negb dry_run && stale env repo_name t fc then copied env t fc else t.

Fixpoint reconcile (env : Env) (repo_name : string) (dry_run : bool)
    (rules : list FileConfig) (t : gmap string string) (acc : list string)
  : list string * gmap string string :=
  match rules with
  | [] => (acc, t)
  | fc :: rest =>
      reconcile env repo_name dry_run rest
        (step_tree env repo_name dry_run t fc) (step_changed env repo_name t acc fc)
  end.

(** The commands of Step 4, which create and publish the branch. *)
Definition branch_cmd (cmd : git_cmd) : bool :=
  match cmd with
  | GitCheckoutNew _ | GitAdd _ | GitCommit _ | GitPush _ _ => true
  | _ => false
  end.

(** [s.endswith(suffix)]. *)
Definition ends_with (suffix s : string) : bool :=
  bool_decide (list_ascii_of_string suffix `suffix_of` list_ascii_of_string s).

(** The request of Step 5: a POST to a [.../pulls] endpoint. *)
Definition opens_pull_request (rq : Request) : bool :=
  String.eqb (rq_method rq) "POST" && ends_with "/pulls" (rq_url rq).

(** [adds P Q w w']: every git command of [w'] was in [w] or satisfies [P],
    every request of [w'] was in [w] or satisfies [Q]. *)
Definition adds (P : git_cmd -> Prop) (Q : Request -> Prop) (w w' : World) : Prop :=
  (forall c, c ∈ w_git w' -> c ∈ w_git w \/ P (snd c))
  /\ (forall rq, rq ∈ w_net w' -> rq ∈ w_net w \/ Q rq).

(** Steps 1 and 2 run no command of Step 4 and send no pull request. *)
Abbreviation quiet :=
  (adds (fun cmd => branch_cmd cmd = false) (fun rq => opens_pull_request rq = false)).

(** [m] returns or raises; it never leaves through [sys.exit]. *)
Definition no_exit {A} (m : M A) : Prop :=
  forall w c, fst (m w) <> Exit c.

(** The run of the batch, told repository by repository: the outcome of each
    call of [sync_repository] in the world the previous ones left, the line
    the loop prints when a call raises, and the world at the end. *)
Fixpoint batch_outcomes (env : Env) (org fork_owner : string) (config : Config)
    (dry_run : bool) (repositories : list string) (w : World)
  : list (outcome bool) * World :=
  match repositories with
  | [] => ([], w)
  | repo_name :: rest =>
      let '(o, w') := sync_repository env org repo_name fork_owner config dry_run w in
      let w'' :=
        match o with
        | Raise _ => snd (print (LogFailedToProcess repo_name) w')
        | _ => w'
        end in
      let '(os, wf) := batch_outcomes env org fork_owner config dry_run rest w'' in
      (o :: os, wf)
  end.

(** The calls the loop counts: those that returned [True]. *)
Definition succeeded (o : outcome bool) : bool :=
  match o with Ret true => true | _ => false end.

Definition successes (os : list (outcome bool)) : nat :=
  List.length (filter (fun o => succeeded o = true) os).

(** A manifest with one organisation and the given repositories. *)
Definition peribolos_of (org : string) (names : list string) : Peribolos :=
  {| orgs := Some [(org, {| org_repos := Some names |})] |}.

(** A name that fits one path segment of an endpoint: not empty, no slash. *)
Definition segment_name (name : string) : bool :=
  negb (String.eqb name "")
  && forallb (fun c => negb (Ascii.eqb c "/")) (list_ascii_of_string name).

(** The request passed the allow-list. *)
Definition allow_listed (rq : Request) : Prop :=
  validate_github_api_request (rq_url rq) (rq_method rq) = true.

(** Whatever git does, every request added passed the allow-list. *)
Abbreviation guarded := (adds (fun _ => True) allow_listed).


(** The git commands [create_branch_and_commit] may run for a branch, a list
    of files and a message. *)
Definition publishing_cmd (branch_name : string) (files_changed : list string)
    (commit_message : string) (cmd : git_cmd) : Prop :=
  cmd = GitCheckoutNew branch_name
  \/ (exists f, f ∈ files_changed /\ cmd = GitAdd f)
  \/ cmd = GitCommit commit_message
  \/ cmd = GitPush "origin" branch_name.

(** No request sent, no sleep, no file written. *)
Definition untouched (w w' : World) : Prop :=
  w_net w' = w_net w /\ w_slept w' = w_slept w /\ w_writes w' = w_writes w.

(** Among the git commands a push to origin. *)
Definition pushes (cmds : list (string * git_cmd)) : Prop :=
  exists cwd branch, (cwd, GitPush "origin" branch) ∈ cmds.

(** From [w] to [w'] commands and requests were only added, and if a pull
    request is among the added requests then a push is among the added
    commands. *)
Definition pr_after_push (w w' : World) : Prop :=
  exists dg dn,
    w_git w' = (dg ++ w_git w)%list
    /\ w_net w' = (dn ++ w_net w)%list
    /\ (Forall (fun rq => opens_pull_request rq = false) dn \/ pushes dg).

(** * Properties *)

Example validate_user :
  validate_github_api_request "https://api.github.com/user" "GET" = true.
Proof. vm_compute. reflexivity. Qed.
Example validate_repo :
  validate_github_api_request "https://api.github.com/repos/o/r" "GET" = true.
Proof. vm_compute. reflexivity. Qed.
Example validate_forks :
  validate_github_api_request "https://api.github.com/repos/o/r/forks" "POST" = true.
Proof. vm_compute. reflexivity. Qed.
Example validate_delete :
  validate_github_api_request "https://api.github.com/repos/o/r/git/refs/heads/b/c" "DELETE" = true.
Proof. vm_compute. reflexivity. Qed.
Example validate_wrong_method :
  validate_github_api_request "https://api.github.com/user" "POST" = false.
Proof. vm_compute. reflexivity. Qed.
Example validate_no_base :
  validate_github_api_request "/repos/o/r/git/refs/heads/b" "DELETE" = false.
Proof. vm_compute. reflexivity. Qed.

(** ** The allow-list and the gateway *)

Lemma allowed_patterns_start_with_h :
  forallb (fun '(pattern, _) => starts_with_literal "h" (Re.compile pattern))
          allowed_patterns = true.
Proof. vm_compute. reflexivity. Qed.

Lemma re_match_first_literal pattern c x s :
  starts_with_literal c (Re.compile pattern) = true ->
  x <> c ->
  Re.re_match pattern (String x s) = false.
Proof.
  unfold Re.re_match. intros Hp Hx.
  destruct (Re.compile pattern) as [[|[| |[y| |]|] [|[| |[z| |]|] p]]|];
    simpl in Hp; try discriminate.
  simpl. apply Ascii.eqb_eq in Hp. subst z.
  destruct (Ascii.eqb_spec c x) as [->|]; [contradiction|reflexivity].
Qed.

(** Nothing that starts with a slash is on the allow-list, whatever the
    method. *)
Lemma validate_rejects_leading_slash s method :
  validate_github_api_request (String "/" s) method = false.
Proof.
  unfold validate_github_api_request.
  pose proof allowed_patterns_start_with_h as H.
  induction allowed_patterns as [|[pattern m] l IH]; [reflexivity|].
  simpl in H. apply andb_prop in H as [Hp Hl].
  simpl. rewrite (re_match_first_literal pattern "h" "/" s Hp); [|discriminate].
  simpl. auto.
Qed.

Lemma validate_false_iff endpoint method :
  validate_github_api_request endpoint method = false <->
  forall pattern allowed_method,
    In (pattern, allowed_method) allowed_patterns ->
    ~ (Re.re_match pattern endpoint = true /\ method = allowed_method).
Proof.
  unfold validate_github_api_request. split.
  - intros H pattern m Hin [Hm ->].
    assert (existsb (fun '(pattern, allowed_method) =>
              Re.re_match pattern endpoint && String.eqb m allowed_method)
              allowed_patterns = true) as Ht; [|congruence].
    apply existsb_exists. exists (pattern, m). split; [assumption|].
    rewrite Hm, String.eqb_refl. reflexivity.
  - intros H. destruct (existsb _ _) eqn:E; [|reflexivity].
    apply existsb_exists in E as [[pattern m] [Hin Hb]].
    apply andb_prop in Hb as [Hm He]. apply String.eqb_eq in He.
    exfalso. apply (H pattern m Hin). split; assumption.
Qed.

(** C1. A request whose endpoint and method match none of the five
    allow-listed (pattern, method) pairs is answered locally with status 403
    and the body [{"error": "Endpoint not allowed"}]; the only effect is the
    line printed: no request reaches the network. *)
Theorem C1_unlisted_request_is_forbidden (env : Env) endpoint method data w :
  (forall pattern allowed_method,
      In (pattern, allowed_method) allowed_patterns ->
      ~ (Re.re_match pattern endpoint = true /\ method = allowed_method)) ->
  github_api_request env endpoint method data w
    = (Ret (403, [("error", "Endpoint not allowed")]),
       snd (print (LogNotAllowed endpoint method) w))
  /\ w_net (snd (github_api_request env endpoint method data w)) = w_net w.
Proof.
  intros H. apply validate_false_iff in H.
  unfold github_api_request. rewrite H. simpl. split; reflexivity.
Qed.

Lemma C1_witness :
  github_api_request (plain_env 200 ∅ ∅) "https://api.github.com/user" "PATCH" None
      empty_world
    = (Ret (403, [("error", "Endpoint not allowed")]),
       snd (print (LogNotAllowed "https://api.github.com/user" "PATCH") empty_world))
  /\ w_net (snd (github_api_request (plain_env 200 ∅ ∅)
                   "https://api.github.com/user" "PATCH" None empty_world))
     = w_net empty_world.
Proof.
  apply (C1_unlisted_request_is_forbidden (plain_env 200 ∅ ∅)
           "https://api.github.com/user" "PATCH" None empty_world).
  apply validate_false_iff. vm_compute. reflexivity.
Defined.

(** C10. [delete_fork_branch] builds its endpoint without the API base, so
    the endpoint starts with a slash, the allow-list rejects it, and the
    function returns [False] for every owner, repository and branch without
    any network request. *)
Theorem C10_delete_fork_branch_always_rejected (env : Env)
    (fork_owner repo_name branch_name : string) (w : World) :
  let endpoint :=
    "/repos/" ++ fork_owner ++ "/" ++ repo_name ++ "/git/refs/heads/" ++ branch_name in
  fst (delete_fork_branch env fork_owner repo_name branch_name w) = Ret false
  /\ w_net (snd (delete_fork_branch env fork_owner repo_name branch_name w)) = w_net w
  /\ validate_github_api_request endpoint "DELETE" = false
  /\ fst (github_api_request env endpoint "DELETE" None w)
     = Ret (403%Z, [("error", "Endpoint not allowed")]).
Proof.
  intros endpoint. subst endpoint.
  assert (validate_github_api_request
            ("/repos/" ++ fork_owner ++ "/" ++ repo_name ++ "/git/refs/heads/"
               ++ branch_name) "DELETE" = false) as Hv
    by apply validate_rejects_leading_slash.
  unfold delete_fork_branch, github_api_request, bind.
  rewrite Hv. simpl. auto.
Qed.

Example delete_fork_branch_sample :
  delete_fork_branch (plain_env 204 ∅ ∅) "bot" "repo" "sync-repo-standards-1"
    empty_world
  = (Ret false,
     snd (print (LogNotAllowed "/repos/bot/repo/git/refs/heads/sync-repo-standards-1"
                   "DELETE") empty_world)).
Proof. vm_compute. reflexivity. Qed.

(** ** Stepping through the monad *)

Lemma bind_ret {A B} (m : M A) (k : A -> M B) w a w' :
  m w = (Ret a, w') -> bind m k w = k a w'.
Proof. unfold bind. intros ->. reflexivity. Qed.

Lemma bind_print {B} l (k : unit -> M B) w :
  bind (print l) k w = k tt (snd (print l w)).
Proof. reflexivity. Qed.

Lemma pair_fst_snd {A B} (p : A * B) a : fst p = a -> p = (a, snd p).
Proof. destruct p. simpl. intros ->. reflexivity. Qed.

Section Keeps.

Variable R : World -> World -> Prop.
Hypothesis R_refl : forall w, R w w.
Hypothesis R_trans : forall w1 w2 w3, R w1 w2 -> R w2 w3 -> R w1 w3.

Lemma keeps_ret {A} (a : A) : keeps R (ret a).
Proof. intros w. apply R_refl. Qed.

Lemma keeps_bind {A B} (m : M A) (k : A -> M B) :
  keeps R m -> (forall a, keeps R (k a)) -> keeps R (bind m k).
Proof.
  intros Hm Hk w. unfold bind. specialize (Hm w).
  destruct (m w) as [[a|e|c] w1]; simpl in *; try assumption.
  eapply R_trans; [exact Hm|apply Hk].
Qed.

Lemma keeps_try_except {A} (body : M A) handler :
  keeps R body ->
  (forall e h, handler e = Some h -> keeps R h) ->
  keeps R (try_except body handler).
Proof.
  intros Hb Hh w. unfold try_except. specialize (Hb w).
  destruct (body w) as [[a|e|c] w1]; simpl in *; try assumption.
  destruct (handler e) as [h|] eqn:E; simpl; [|assumption].
  eapply R_trans; [exact Hb|eapply Hh; eassumption].
Qed.

Lemma keeps_if {A} (b : bool) (m1 m2 : M A) :
  keeps R m1 -> keeps R m2 -> keeps R (if b then m1 else m2).
Proof. destruct b; auto. Qed.

End Keeps.

Lemma same_checkout_refl w : same_checkout w w.
Proof. repeat split. Qed.

Lemma same_checkout_trans w1 w2 w3 :
  same_checkout w1 w2 -> same_checkout w2 w3 -> same_checkout w1 w3.
Proof.
  unfold same_checkout. intros (?&?&?&?) (?&?&?&?). repeat split; congruence.
Qed.

Ltac keeps_step R_refl R_trans :=
  match goal with
  | |- keeps _ (ret _) => apply (keeps_ret _ R_refl)
  | |- keeps _ (bind _ _) => apply (keeps_bind _ R_trans); [|intros ?]
  | |- keeps _ (try_except _ _) => apply (keeps_try_except _ R_trans); [|intros ? ? ?]
  | |- keeps _ (if _ then _ else _) => apply keeps_if
  | |- keeps _ (let '(_, _) := ?p in _) => destruct p
  | |- keeps _ (match ?x with _ => _ end) => destruct x
  | H : Some _ = Some _ |- _ => injection H as <-
  | H : None = Some _ |- _ => discriminate H
  | H : match ?x with _ => _ end = Some _ |- _ => destruct x
  end.

Lemma print_same_checkout l : keeps same_checkout (print l).
Proof. intros w. repeat split. Qed.

Lemma time_sleep_same_checkout n : keeps same_checkout (time_sleep n).
Proof. intros w. repeat split. Qed.

Lemma requests_request_same_checkout env rq :
  keeps same_checkout (requests_request env rq).
Proof. intros w. repeat split. Qed.

Lemma github_api_request_same_checkout env endpoint method data :
  keeps same_checkout (github_api_request env endpoint method data).
Proof.
  unfold github_api_request.
  repeat first [ simple apply print_same_checkout | simple apply requests_request_same_checkout
               | keeps_step same_checkout_refl same_checkout_trans ].
Qed.

Lemma check_fork_exists_same_checkout env org repo_name fork_owner :
  keeps same_checkout (check_fork_exists env org repo_name fork_owner).
Proof.
  unfold check_fork_exists.
  repeat first [ simple apply github_api_request_same_checkout
               | keeps_step same_checkout_refl same_checkout_trans ].
Qed.

Lemma create_fork_same_checkout env org repo_name :
  keeps same_checkout (create_fork env org repo_name).
Proof.
  unfold create_fork.
  repeat first [ simple apply print_same_checkout | simple apply time_sleep_same_checkout
               | simple apply github_api_request_same_checkout
               | keeps_step same_checkout_refl same_checkout_trans ].
Qed.

Lemma ensure_fork_same_checkout env org repo_name fork_owner dry_run :
  keeps same_checkout (ensure_fork env org repo_name fork_owner dry_run).
Proof.
  unfold ensure_fork.
  repeat first [ simple apply print_same_checkout | simple apply check_fork_exists_same_checkout
               | simple apply create_fork_same_checkout
               | keeps_step same_checkout_refl same_checkout_trans ].
Qed.

(** What the gateway answers does not depend on the world it is asked in. *)
Lemma github_api_request_answer env endpoint method data w w' :
  fst (github_api_request env endpoint method data w)
  = fst (github_api_request env endpoint method data w').
Proof.
  unfold github_api_request.
  destruct (validate_github_api_request endpoint method); simpl; [|reflexivity].
  unfold try_except, bind, requests_request. simpl.
  destruct (e_http env _) as [r|[]]; reflexivity.
Qed.

Lemma check_fork_exists_answer env org repo_name fork_owner w w' :
  fst (check_fork_exists env org repo_name fork_owner w)
  = fst (check_fork_exists env org repo_name fork_owner w').
Proof.
  unfold check_fork_exists, bind.
  pose proof (github_api_request_answer env
                (GITHUB_API ++ "/repos/" ++ fork_owner ++ "/" ++ repo_name)
                "GET" None w w') as H.
  destruct (github_api_request env _ "GET" None w) as [[[st d]|e|c] w1];
    destruct (github_api_request env _ "GET" None w') as [[[st' d']|e'|c'] w1'];
    simpl in H; try discriminate; inversion H; subst; simpl; try reflexivity.
  destruct (st' =? 200)%Z; reflexivity.
Qed.

Lemma create_fork_refused env org repo_name status data w0 w :
  fst (github_api_request env
         (GITHUB_API ++ "/repos/" ++ org ++ "/" ++ repo_name ++ "/forks")
         "POST" (Some []) w0) = Ret (status, data) ->
  status <> 202%Z -> status <> 200%Z ->
  fst (create_fork env org repo_name w) = Ret false.
Proof.
  intros H H202 H200. unfold create_fork, bind. simpl.
  rewrite (github_api_request_answer env _ _ _ w0
             (snd (print (LogCreatingFork org repo_name) w))) in H.
  destruct (github_api_request env _ "POST" (Some []) _) as [[[st d]|e|c] w1];
    simpl in H; try discriminate.
  injection H as -> ->.
  destruct (Z.eqb_spec status 202); [contradiction|].
  destruct (Z.eqb_spec status 200); [contradiction|].
  reflexivity.
Qed.

(** ** The contribution driver: early exits *)

(** C6. With [files_to_sync] absent or empty, [sync_repository] returns
    [False] at once: it prints its banner and the message, and leaves the
    network, git, the temporary directories and the file system untouched. *)
Theorem C6_no_files_configured_is_failure (env : Env) org repo_name fork_owner
    config dry_run w :
  cfg_files_to_sync config = None \/ cfg_files_to_sync config = Some [] ->
  sync_repository env org repo_name fork_owner config dry_run w
    = (Ret false,
       snd (print LogNoFilesConfigured (snd (print (LogProcessing org repo_name) w))))
  /\ let w' := snd (sync_repository env org repo_name fork_owner config dry_run w) in
     w_net w' = w_net w /\ w_git w' = w_git w /\ w_tmp w' = w_tmp w
     /\ w_tree w' = w_tree w /\ w_writes w' = w_writes w.
Proof.
  intros H. unfold sync_repository.
  destruct H as [-> | ->]; simpl; repeat split; reflexivity.
Qed.

Lemma C6_witness :
  let config := {| cfg_files_to_sync := Some []; cfg_exclude_repos := None |} in
  sync_repository (plain_env 200 ∅ ∅) "org" "repo" "bot" config false empty_world
    = (Ret false,
       snd (print LogNoFilesConfigured
              (snd (print (LogProcessing "org" "repo") empty_world))))
  /\ let w' := snd (sync_repository (plain_env 200 ∅ ∅) "org" "repo" "bot" config
                      false empty_world) in
     w_net w' = w_net empty_world /\ w_git w' = w_git empty_world
     /\ w_tmp w' = w_tmp empty_world
     /\ w_tree w' = w_tree empty_world /\ w_writes w' = w_writes empty_world.
Proof.
  intros config.
  apply (C6_no_files_configured_is_failure (plain_env 200 ∅ ∅) "org" "repo" "bot"
           config false empty_world).
  right. reflexivity.
Defined.

Lemma ensure_fork_refused env org repo_name fork_owner status data wa wb w :
  fst (check_fork_exists env org repo_name fork_owner wa) = Ret false ->
  fst (github_api_request env
         (GITHUB_API ++ "/repos/" ++ org ++ "/" ++ repo_name ++ "/forks")
         "POST" (Some []) wb) = Ret (status, data) ->
  status <> 202%Z -> status <> 200%Z ->
  fst (ensure_fork env org repo_name fork_owner false w) = Ret false.
Proof.
  intros Hc Hp H202 H200. unfold ensure_fork. simpl.
  rewrite (check_fork_exists_answer env _ _ _ wa w) in Hc.
  apply pair_fst_snd in Hc. rewrite (bind_ret _ _ _ _ _ Hc). simpl.
  pose proof (create_fork_refused env org repo_name status data wb
                (snd (check_fork_exists env org repo_name fork_owner w))
                Hp H202 H200) as Hf.
  apply pair_fst_snd in Hf. rewrite (bind_ret _ _ _ _ _ Hf). reflexivity.
Qed.

(** C4. Outside a dry run, when the fork is not there and the request that
    creates it is answered with a status other than 202 and 200, [create_fork]
    returns [False], and [sync_repository] returns [False] without running any
    git command (no clone in particular) and without creating a temporary
    directory. *)
Theorem C4_fork_creation_failure_stops_before_clone (env : Env) org repo_name
    fork_owner config status data wa wb w :
  fst (check_fork_exists env org repo_name fork_owner wa) = Ret false ->
  fst (github_api_request env
         (GITHUB_API ++ "/repos/" ++ org ++ "/" ++ repo_name ++ "/forks")
         "POST" (Some []) wb) = Ret (status, data) ->
  status <> 202%Z -> status <> 200%Z ->
  fst (create_fork env org repo_name wb) = Ret false
  /\ fst (sync_repository env org repo_name fork_owner config false w) = Ret false
  /\ let w' := snd (sync_repository env org repo_name fork_owner config false w) in
     w_git w' = w_git w /\ w_tmp w' = w_tmp w /\ w_tree w' = w_tree w.
Proof.
  intros Hc Hp H202 H200. split.
  { eapply create_fork_refused; eassumption. }
  unfold sync_repository. rewrite bind_print.
  destruct (default [] (cfg_files_to_sync config)) as [|fc fcs].
  { repeat split. }
  set (w0 := snd (print (LogProcessing org repo_name) w)).
  pose proof (ensure_fork_refused env org repo_name fork_owner status data wa wb w0
                Hc Hp H202 H200) as He.
  pose proof (ensure_fork_same_checkout env org repo_name fork_owner false w0)
    as (Hg & Ht & Hr & _).
  apply pair_fst_snd in He.
  rewrite (bind_ret _ _ _ _ _ He). cbn [negb ret fst snd].
  repeat split; assumption.
Qed.

Lemma C4_witness :
  let env := plain_env 500 ∅ ∅ in
  let config :=
    {| cfg_files_to_sync :=
         Some [ {| fc_source := "CODEOWNERS"; fc_destination := None;
                   fc_exclude_repos := None |} ];
       cfg_exclude_repos := None |} in
  fst (create_fork env "org" "repo" empty_world) = Ret false
  /\ fst (sync_repository env "org" "repo" "bot" config false empty_world) = Ret false
  /\ let w' := snd (sync_repository env "org" "repo" "bot" config false empty_world) in
     w_git w' = w_git empty_world /\ w_tmp w' = w_tmp empty_world
     /\ w_tree w' = w_tree empty_world.
Proof.
  intros env config.
  apply (C4_fork_creation_failure_stops_before_clone env "org" "repo" "bot" config
           500%Z [("login", "bot")] empty_world empty_world empty_world).
  - vm_compute. reflexivity.
  - vm_compute. reflexivity.
  - lia.
  - lia.
Defined.

Lemma process_file_spec env repo_name dry_run acc fc w :
  let r := process_file env repo_name dry_run acc fc w in
  fst r = Ret (step_changed env repo_name (w_tree w) acc fc)
  /\ w_tree (snd r) = step_tree env repo_name dry_run (w_tree w) fc
  /\ w_writes (snd r)
     = (if negb dry_run && stale env repo_name (w_tree w) fc
        then dest_of fc :: w_writes w else w_writes w)
  /\ w_net (snd r) = w_net w /\ w_git (snd r) = w_git w /\ w_tmp (snd r) = w_tmp w.
Proof.
  unfold process_file, step_changed, step_tree, stale, active, copied, source_exists,
    sync_file, compare_files, filecmp_cmp, os_path_exists, shutil_copy2, dest_of,
    bind, print, ret.
  set (dst := default (fc_source fc) (fc_destination fc)).
  destruct (e_source env !! fc_source fc) as [s|] eqn:Es;
    destruct (excluded_for repo_name fc); destruct dry_run;
    destruct (w_tree w !! dst) as [d|] eqn:Ed;
    cbn; rewrite ?Ed, ?Es; cbn;
    do 3 (repeat case_bool_decide; simplify_eq; cbn; rewrite ?Ed, ?Es; cbn);
    repeat split;
    first [ congruence
          | exfalso;
            match goal with
            | H : ~ is_Some _ |- _ => apply H; rewrite Ed; eauto
            end ].
Qed.

Lemma process_files_spec env repo_name dry_run rules : forall acc w,
  let r := process_files env repo_name dry_run rules acc w in
  fst r = Ret (fst (reconcile env repo_name dry_run rules (w_tree w) acc))
  /\ w_tree (snd r) = snd (reconcile env repo_name dry_run rules (w_tree w) acc)
  /\ w_net (snd r) = w_net w /\ w_git (snd r) = w_git w /\ w_tmp (snd r) = w_tmp w.
Proof.
  induction rules as [|fc rest IH]; intros acc w; cbn [process_files reconcile].
  { repeat split. }
  destruct (process_file_spec env repo_name dry_run acc fc w)
    as (Hr & Ht & _ & Hn & Hg & Hm).
  apply pair_fst_snd in Hr. rewrite (bind_ret _ _ _ _ _ Hr).
  destruct (IH (step_changed env repo_name (w_tree w) acc fc)
               (snd (process_file env repo_name dry_run acc fc w)))
    as (Hr' & Ht' & Hn' & Hg' & Hm').
  rewrite Ht in Hr', Ht'. repeat split; congruence.
Qed.




Lemma reconcile_app env repo_name dry_run l1 l2 : forall t acc,
  reconcile env repo_name dry_run (l1 ++ l2) t acc
  = reconcile env repo_name dry_run l2
      (snd (reconcile env repo_name dry_run l1 t acc))
      (fst (reconcile env repo_name dry_run l1 t acc)).
Proof.
  induction l1 as [|fc l1 IH]; intros t acc; cbn [reconcile app]; [reflexivity|].
  apply IH.
Qed.

Lemma stale_active env repo_name t fc :
  stale env repo_name t fc = true -> active env repo_name fc = true.
Proof. unfold stale. intros H. apply andb_prop in H. tauto. Qed.

(** A rule that is not active leaves no trace in the result of the loop. *)
Lemma reconcile_skip env repo_name dry_run pre fc post t acc :
  active env repo_name fc = false ->
  reconcile env repo_name dry_run (pre ++ fc :: post) t acc
  = reconcile env repo_name dry_run (pre ++ post) t acc.
Proof.
  intros Ha. rewrite !reconcile_app. cbn [reconcile].
  unfold step_tree, step_changed, stale. rewrite Ha. cbn.
  rewrite andb_false_r. reflexivity.
Qed.

(** Every path in the list was there before the loop or is the destination
    of an active rule. *)
Lemma reconcile_changed_origin env repo_name dry_run rules : forall t acc d,
  d ∈ fst (reconcile env repo_name dry_run rules t acc) ->
  d ∈ acc
  \/ exists fc, fc ∈ rules /\ active env repo_name fc = true /\ dest_of fc = d.
Proof.
  induction rules as [|fc rest IH]; intros t acc d Hd; cbn [reconcile] in Hd.
  { left. exact Hd. }
  apply IH in Hd as [Hd | (fc' & Hin & Ha & He)].
  - unfold step_changed in Hd.
    destruct (stale env repo_name t fc) eqn:Es; [|left; exact Hd].
    apply elem_of_app in Hd as [Hd | Hd]; [left; exact Hd|].
    apply list_elem_of_singleton in Hd. right. exists fc.
    split; [apply list_elem_of_here|]. split; [|congruence].
    eapply stale_active; eassumption.
  - right. exists fc'. split; [apply list_elem_of_further; exact Hin|]. tauto.
Qed.




(** ** The reconciler: dry run against real run *)


(** The lists may differ where the sets agree: two rules write the same
    destination, and the real run copies twice. *)
Example dry_and_real_lists_differ :
  let env := plain_env 200 {[ "a" := "1"; "b" := "2" ]} ∅ in
  let rules :=
    [ {| fc_source := "a"; fc_destination := Some "x"; fc_exclude_repos := None |};
      {| fc_source := "b"; fc_destination := Some "x"; fc_exclude_repos := None |} ] in
  let w := set_tree {[ "x" := "2" ]} empty_world in
  fst (process_files env "repo" true rules [] w) = Ret ["x"]
  /\ fst (process_files env "repo" false rules [] w) = Ret ["x"; "x"].
Proof. vm_compute. split; reflexivity. Qed.


(** ** The reconciler: rules that are skipped *)

Lemma process_file_source_missing env repo_name dry_run acc fc w :
  source_exists env (fc_source fc) = false ->
  process_file env repo_name dry_run acc fc w
  = (Ret acc, snd (print (LogSourceNotFound (fc_source fc)) w)).
Proof. unfold process_file. intros ->. reflexivity. Qed.

Lemma process_file_excluded env repo_name dry_run acc fc w :
  excluded_for repo_name fc = true ->
  process_file env repo_name dry_run acc fc w
  = (Ret acc,
     snd (print (if source_exists env (fc_source fc)
                 then LogExcluded (fc_source fc)
                 else LogSourceNotFound (fc_source fc)) w)).
Proof.
  unfold process_file. intros ->.
  destruct (source_exists env (fc_source fc)); reflexivity.
Qed.

Lemma process_files_skip env repo_name dry_run pre fc post w :
  active env repo_name fc = false ->
  let with_rule := process_files env repo_name dry_run (pre ++ fc :: post) [] w in
  let without := process_files env repo_name dry_run (pre ++ post) [] w in
  fst with_rule = fst without
  /\ w_tree (snd with_rule) = w_tree (snd without)
  /\ (exists changed, fst with_rule = Ret changed
        /\ (dest_of fc ∈ changed ->
            exists fc', fc' ∈ (pre ++ post)%list
                        /\ active env repo_name fc' = true
                        /\ dest_of fc' = dest_of fc)).
Proof.
  intros Ha.
  destruct (process_files_spec env repo_name dry_run (pre ++ fc :: post) [] w)
    as (H1 & T1 & _).
  destruct (process_files_spec env repo_name dry_run (pre ++ post) [] w)
    as (H2 & T2 & _).
  cbn zeta. rewrite H1, H2, T1, T2.
  rewrite (reconcile_skip _ _ _ _ _ _ _ _ Ha).
  split; [reflexivity|]. split; [reflexivity|].
  eexists. split; [reflexivity|]. intros Hd.
  apply reconcile_changed_origin in Hd as [Hd | Hd]; [inversion Hd | exact Hd].
Qed.

Lemma excluded_not_active env repo_name fc :
  excluded_for repo_name fc = true -> active env repo_name fc = false.
Proof. unfold active. intros ->. apply andb_false_r. Qed.

Lemma missing_not_active env repo_name fc :
  source_exists env (fc_source fc) = false -> active env repo_name fc = false.
Proof. unfold active. intros ->. reflexivity. Qed.

(** C7. A rule whose [exclude_repos] holds the repository name is skipped in
    a dry run and in a real one, whatever the contents of source and
    destination: its turn returns the list as it was and only prints a line,
    the loop gives the result it gives without the rule, and the rule's
    destination is in the final list only when an active rule of the list
    has the same destination. *)
Theorem C7_excluded_rule_adds_nothing (env : Env) repo_name dry_run pre fc post w
    names :
  fc_exclude_repos fc = Some names ->
  repo_name ∈ names ->
  (forall acc w',
      exists line,
        process_file env repo_name dry_run acc fc w' = (Ret acc, snd (print line w')))
  /\ fst (process_files env repo_name dry_run (pre ++ fc :: post) [] w)
     = fst (process_files env repo_name dry_run (pre ++ post) [] w)
  /\ w_tree (snd (process_files env repo_name dry_run (pre ++ fc :: post) [] w))
     = w_tree (snd (process_files env repo_name dry_run (pre ++ post) [] w))
  /\ exists changed,
       fst (process_files env repo_name dry_run (pre ++ fc :: post) [] w) = Ret changed
       /\ (dest_of fc ∈ changed ->
           exists fc', fc' ∈ (pre ++ post)%list
                       /\ active env repo_name fc' = true
                       /\ dest_of fc' = dest_of fc).
Proof.
  intros Hn Hin.
  assert (excluded_for repo_name fc = true) as He.
  { unfold excluded_for. rewrite Hn. apply bool_decide_eq_true_2. exact Hin. }
  split.
  { intros acc w'. eexists. apply process_file_excluded. exact He. }
  apply process_files_skip. apply excluded_not_active. exact He.
Qed.

Lemma C7_witness :
  let env := plain_env 200 codeowners_tree ∅ in
  let rule :=
    {| fc_source := "CODEOWNERS"; fc_destination := None;
       fc_exclude_repos := Some ["website"; "repo"] |} in
  fst (process_files env "repo" false ([] ++ rule :: []) [] empty_world)
    = fst (process_files env "repo" false ([] ++ []) [] empty_world)
  /\ fst (process_files env "repo" true ([] ++ rule :: []) [] empty_world)
     = fst (process_files env "repo" true ([] ++ []) [] empty_world).
Proof.
  intros env rule. split.
  - apply (C7_excluded_rule_adds_nothing env "repo" false [] rule [] empty_world
             ["website"; "repo"]).
    + reflexivity.
    + apply list_elem_of_further, list_elem_of_here.
  - apply (C7_excluded_rule_adds_nothing env "repo" true [] rule [] empty_world
             ["website"; "repo"]).
    + reflexivity.
    + apply list_elem_of_further, list_elem_of_here.
Defined.

(** C8. A rule whose source file is missing is skipped without failing the
    repository, in a dry run and in a real one: its turn prints "source file
    not found" and returns the list as it was, the loop goes on and gives the
    result it gives without the rule, and the rule's destination is in the
    final list only when an active rule of the list has the same
    destination. *)
Theorem C8_missing_source_rule_adds_nothing (env : Env) repo_name dry_run pre fc
    post w :
  e_source env !! fc_source fc = None ->
  (forall acc w',
      process_file env repo_name dry_run acc fc w'
      = (Ret acc, snd (print (LogSourceNotFound (fc_source fc)) w')))
  /\ fst (process_files env repo_name dry_run (pre ++ fc :: post) [] w)
     = fst (process_files env repo_name dry_run (pre ++ post) [] w)
  /\ w_tree (snd (process_files env repo_name dry_run (pre ++ fc :: post) [] w))
     = w_tree (snd (process_files env repo_name dry_run (pre ++ post) [] w))
  /\ exists changed,
       fst (process_files env repo_name dry_run (pre ++ fc :: post) [] w) = Ret changed
       /\ (dest_of fc ∈ changed ->
           exists fc', fc' ∈ (pre ++ post)%list
                       /\ active env repo_name fc' = true
                       /\ dest_of fc' = dest_of fc).
Proof.
  intros Hs.
  assert (source_exists env (fc_source fc) = false) as Hm.
  { unfold source_exists. rewrite Hs. apply bool_decide_eq_false_2.
    intros [x Hx]. discriminate Hx. }
  split.
  { intros acc w'. apply process_file_source_missing. exact Hm. }
  apply process_files_skip. apply missing_not_active. exact Hm.
Qed.

Lemma C8_witness :
  let env := plain_env 200 codeowners_tree ∅ in
  let rule :=
    {| fc_source := "SECURITY.md"; fc_destination := None; fc_exclude_repos := None |} in
  fst (process_files env "repo" false ([codeowners_rule] ++ rule :: []) []
         empty_world)
    = fst (process_files env "repo" false ([codeowners_rule] ++ []) [] empty_world).
Proof.
  intros env rule.
  apply (C8_missing_source_rule_adds_nothing env "repo" false [codeowners_rule] rule
           [] empty_world).
  vm_compute. reflexivity.
Defined.

(** ** Which git commands and requests a computation adds *)

Section Adds.

Variable P : git_cmd -> Prop.
Variable Q : Request -> Prop.

Lemma adds_refl w : adds P Q w w.
Proof. split; auto. Qed.

Lemma adds_trans w1 w2 w3 : adds P Q w1 w2 -> adds P Q w2 w3 -> adds P Q w1 w3.
Proof.
  intros [G1 N1] [G2 N2]. split.
  - intros c Hc. destruct (G2 c Hc); auto.
  - intros rq Hr. destruct (N2 rq Hr); auto.
Qed.

Lemma print_adds l : keeps (adds P Q) (print l).
Proof. intros w. split; auto. Qed.

Lemma time_sleep_adds n : keeps (adds P Q) (time_sleep n).
Proof. intros w. split; auto. Qed.

Lemma requests_request_adds env rq : Q rq -> keeps (adds P Q) (requests_request env rq).
Proof.
  intros HQ w. split; [auto|]. cbn. intros rq' Hr.
  apply elem_of_cons in Hr as [-> | Hr]; auto.
Qed.

Lemma run_git_adds env cwd cmd : P cmd -> keeps (adds P Q) (run_git env cwd cmd).
Proof.
  intros HP w. unfold run_git.
  destruct (e_git env cwd cmd (w_tree w)); cbn; (split; [|auto]); cbn;
    intros c Hc; apply elem_of_cons in Hc as [-> | Hc]; auto.
Qed.

Lemma github_api_request_adds env endpoint method data :
  Q {| rq_method := method; rq_url := endpoint; rq_json := data |} ->
  keeps (adds P Q) (github_api_request env endpoint method data).
Proof.
  intros HQ. unfold github_api_request.
  repeat first [ simple apply print_adds
               | simple apply requests_request_adds; exact HQ
               | keeps_step adds_refl adds_trans ].
Qed.

End Adds.

Lemma list_ascii_of_string_app a b :
  list_ascii_of_string (a ++ b)
  = (list_ascii_of_string a ++ list_ascii_of_string b)%list.
Proof. induction a as [|c a IH]; simpl; [reflexivity|]. f_equal. exact IH. Qed.

Lemma string_append_assoc (a b c : string) : (a ++ b) ++ c = a ++ b ++ c.
Proof.
  induction a as [|x a IH]; [reflexivity|].
  change (String x ((a ++ b) ++ c) = String x (a ++ b ++ c)).
  f_equal. exact IH.
Qed.

Lemma ends_with_other_suffix suffix other s :
  List.length (list_ascii_of_string suffix)
    = List.length (list_ascii_of_string other) ->
  suffix <> other ->
  ends_with suffix (s ++ other) = false.
Proof.
  intros Hl Hne. unfold ends_with. apply bool_decide_eq_false_2.
  intros [k Hk]. rewrite list_ascii_of_string_app in Hk.
  apply app_inj_2 in Hk as [_ Hk].
  - apply Hne. rewrite <- (string_of_list_ascii_of_string suffix),
      <- (string_of_list_ascii_of_string other). rewrite Hk. reflexivity.
  - symmetry. exact Hl.
Qed.

Lemma quiet_refl w : quiet w w.
Proof. apply adds_refl. Qed.

Lemma quiet_trans w1 w2 w3 : quiet w1 w2 -> quiet w2 w3 -> quiet w1 w3.
Proof. apply adds_trans. Qed.

Ltac quiet_leaf :=
  first [ simple apply print_adds
        | simple apply time_sleep_adds
        | simple apply run_git_adds; reflexivity
        | simple apply github_api_request_adds; reflexivity ].

Lemma check_fork_exists_quiet env org repo_name fork_owner :
  keeps quiet (check_fork_exists env org repo_name fork_owner).
Proof.
  unfold check_fork_exists.
  repeat first [ quiet_leaf | keeps_step quiet_refl quiet_trans ].
Qed.

Lemma create_fork_quiet env org repo_name :
  keeps quiet (create_fork env org repo_name).
Proof.
  unfold create_fork.
  apply (keeps_bind _ quiet_trans); [apply print_adds|intros _].
  apply (keeps_bind _ quiet_trans).
  - apply github_api_request_adds. unfold opens_pull_request. cbn [rq_method rq_url].
    replace (GITHUB_API ++ "/repos/" ++ org ++ "/" ++ repo_name ++ "/forks")
      with ((GITHUB_API ++ "/repos/" ++ org ++ "/" ++ repo_name) ++ "/forks").
    + rewrite ends_with_other_suffix; [reflexivity | reflexivity | discriminate].
    + rewrite !string_append_assoc. reflexivity.
  - intros [status data].
    repeat first [ quiet_leaf | keeps_step quiet_refl quiet_trans ].
Qed.

Lemma ensure_fork_quiet env org repo_name fork_owner dry_run :
  keeps quiet (ensure_fork env org repo_name fork_owner dry_run).
Proof.
  unfold ensure_fork.
  repeat first [ simple apply check_fork_exists_quiet
               | simple apply create_fork_quiet
               | quiet_leaf | keeps_step quiet_refl quiet_trans ].
Qed.

Lemma setup_git_credentials_quiet env repo_path fork_owner repo_name :
  keeps quiet (setup_git_credentials env repo_path fork_owner repo_name).
Proof.
  unfold setup_git_credentials.
  repeat first [ quiet_leaf | keeps_step quiet_refl quiet_trans ].
Qed.

Lemma acquire_working_tree_quiet env tmpdir org repo_name fork_owner dry_run :
  keeps quiet (acquire_working_tree env tmpdir org repo_name fork_owner dry_run).
Proof.
  unfold acquire_working_tree.
  repeat first [ simple apply setup_git_credentials_quiet
               | quiet_leaf | keeps_step quiet_refl quiet_trans ].
Qed.

(** ** The contribution driver: nothing to change *)

(** C5. When the run reaches the loop over the rules (the fork is ready, the
    temporary directory exists, the clone succeeded) and the loop ends with an
    empty list, [sync_repository] prints "all files up to date" and returns
    [True]; over the whole call no command that creates, commits or pushes a
    branch is run and no pull request is sent. *)
Theorem C5_no_changes_is_success (env : Env) org repo_name fork_owner config
    dry_run fc fcs w w1 tmpdir repo_path w2 w3 :
  cfg_files_to_sync config = Some (fc :: fcs) ->
  ensure_fork env org repo_name fork_owner dry_run
    (snd (print (LogProcessing org repo_name) w)) = (Ret true, w1) ->
  e_mkdtemp env (w_tmp w1) = Ok tmpdir ->
  acquire_working_tree env tmpdir org repo_name fork_owner dry_run (count_tmpdir w1)
    = (Ret repo_path, w2) ->
  process_files env repo_name dry_run (fc :: fcs) [] w2 = (Ret [], w3) ->
  let r := sync_repository env org repo_name fork_owner config dry_run w in
  r = (Ret true, set_tree ∅ (snd (print (LogAllUpToDate repo_name) w3)))
  /\ (forall c, c ∈ w_git (snd r) -> c ∈ w_git w \/ branch_cmd (snd c) = false)
  /\ (forall rq, rq ∈ w_net (snd r) -> rq ∈ w_net w \/ opens_pull_request rq = false).
Proof.
  intros Hcfg Hfork Htmp Hclone Hloop r.
  assert (r = (Ret true, set_tree ∅ (snd (print (LogAllUpToDate repo_name) w3))))
    as Hr.
  { subst r. unfold sync_repository. rewrite bind_print, Hcfg. cbn [from_option id].
    rewrite (bind_ret _ _ _ _ _ Hfork). cbn [negb].
    unfold with_temporary_directory. rewrite Htmp.
    unfold try_except.
    rewrite (bind_ret _ _ _ _ _ Hclone), (bind_ret _ _ _ _ _ Hloop).
    reflexivity. }
  split; [exact Hr|].
  assert (quiet w (snd r)) as [Hg Hn]; [|split; assumption].
  rewrite Hr. cbn [snd].
  eapply quiet_trans; [apply (print_adds _ _ (LogProcessing org repo_name) w)|].
  eapply quiet_trans.
  { pose proof (ensure_fork_quiet env org repo_name fork_owner dry_run
                  (snd (print (LogProcessing org repo_name) w))) as H.
    rewrite Hfork in H. exact H. }
  eapply (quiet_trans _ (count_tmpdir w1)); [split; auto|].
  eapply quiet_trans.
  { pose proof (acquire_working_tree_quiet env tmpdir org repo_name fork_owner
                  dry_run (count_tmpdir w1)) as H.
    rewrite Hclone in H. exact H. }
  destruct (process_files_spec env repo_name dry_run (fc :: fcs) [] w2)
    as (_ & _ & Hn & Hg & _).
  rewrite Hloop in Hn, Hg. cbn [snd] in Hn, Hg.
  split; cbn; [rewrite Hg | rewrite Hn]; auto.
Qed.

Lemma C5_witness :
  let env := plain_env 200 {[ "CODEOWNERS" := "* @org/maintainers" ]}
               {[ "CODEOWNERS" := "* @org/maintainers" ]} in
  let config :=
    {| cfg_files_to_sync :=
         Some [ {| fc_source := "CODEOWNERS"; fc_destination := None;
                   fc_exclude_repos := None |} ];
       cfg_exclude_repos := None |} in
  fst (sync_repository env "org" "repo" "bot" config false empty_world) = Ret true
  /\ LogAllUpToDate "repo"
     ∈ w_out (snd (sync_repository env "org" "repo" "bot" config false empty_world)).
Proof.
  intros env config.
  pose (fc := {| fc_source := "CODEOWNERS"; fc_destination := None;
                 fc_exclude_repos := None |}).
  pose (w0 := snd (print (LogProcessing "org" "repo") empty_world)).
  pose (w1 := snd (ensure_fork env "org" "repo" "bot" false w0)).
  pose (w2 := snd (acquire_working_tree env "/tmp/sync" "org" "repo" "bot" false
                     (count_tmpdir w1))).
  pose (w3 := snd (process_files env "repo" false [fc] [] w2)).
  destruct (C5_no_changes_is_success env "org" "repo" "bot" config false fc []
              empty_world w1 "/tmp/sync" "/tmp/sync/repo" w2 w3) as (Hr & _).
  - reflexivity.
  - vm_compute. reflexivity.
  - reflexivity.
  - vm_compute. reflexivity.
  - vm_compute. reflexivity.
  - cbv zeta in Hr. rewrite Hr. split; [reflexivity|].
    cbn. apply list_elem_of_here.
Defined.

(** ** Nothing below [main] leaves through [sys.exit] *)

Lemma no_exit_ret {A} (a : A) : no_exit (ret a).
Proof. intros w c. discriminate. Qed.

Lemma no_exit_bind {A B} (m : M A) (k : A -> M B) :
  no_exit m -> (forall a, no_exit (k a)) -> no_exit (bind m k).
Proof.
  intros Hm Hk w c. unfold bind. specialize (Hm w).
  destruct (m w) as [[a|e|c'] w1]; cbn in *.
  - apply Hk.
  - discriminate.
  - exfalso. exact (Hm c' eq_refl).
Qed.

Lemma no_exit_try_except {A} (body : M A) handler :
  no_exit body ->
  (forall e h, handler e = Some h -> no_exit h) ->
  no_exit (try_except body handler).
Proof.
  intros Hb Hh w c. unfold try_except. specialize (Hb w).
  destruct (body w) as [[a|e|c'] w1]; cbn in *.
  - discriminate.
  - destruct (handler e) as [h|] eqn:E; [eapply Hh; eassumption | discriminate].
  - exact (Hb c).
Qed.

Lemma no_exit_if {A} (b : bool) (m1 m2 : M A) :
  no_exit m1 -> no_exit m2 -> no_exit (if b then m1 else m2).
Proof. destruct b; auto. Qed.

Lemma print_no_exit l : no_exit (print l).
Proof. intros w c. discriminate. Qed.

Lemma time_sleep_no_exit n : no_exit (time_sleep n).
Proof. intros w c. discriminate. Qed.

Lemma requests_request_no_exit env rq : no_exit (requests_request env rq).
Proof.
  intros w c. unfold requests_request. cbn. destruct (e_http env rq); discriminate.
Qed.

Lemma run_git_no_exit env cwd cmd : no_exit (run_git env cwd cmd).
Proof.
  intros w c. unfold run_git. destruct (e_git env cwd cmd (w_tree w)); discriminate.
Qed.

Lemma os_path_exists_no_exit p : no_exit (os_path_exists p).
Proof. intros w c. discriminate. Qed.

Lemma filecmp_cmp_no_exit env a b : no_exit (filecmp_cmp env a b).
Proof.
  intros w c. unfold filecmp_cmp.
  destruct (e_source env !! a), (w_tree w !! b); discriminate.
Qed.

Lemma shutil_copy2_no_exit env a b : no_exit (shutil_copy2 env a b).
Proof.
  intros w c. unfold shutil_copy2. destruct (e_source env !! a); discriminate.
Qed.

Lemma with_temporary_directory_no_exit {A} env (body : string -> M A) :
  (forall d, no_exit (body d)) -> no_exit (with_temporary_directory env body).
Proof.
  intros Hb w c. unfold with_temporary_directory.
  destruct (e_mkdtemp env (w_tmp w)) as [d|e]; [|discriminate].
  specialize (Hb d (count_tmpdir w) c).
  destruct (body d (count_tmpdir w)) as [o w']. exact Hb.
Qed.

Ltac no_exit_step :=
  match goal with
  | |- no_exit (ret _) => apply no_exit_ret
  | |- no_exit (print _) => apply print_no_exit
  | |- no_exit (time_sleep _) => apply time_sleep_no_exit
  | |- no_exit (requests_request _ _) => apply requests_request_no_exit
  | |- no_exit (run_git _ _ _) => apply run_git_no_exit
  | |- no_exit (os_path_exists _) => apply os_path_exists_no_exit
  | |- no_exit (filecmp_cmp _ _ _) => apply filecmp_cmp_no_exit
  | |- no_exit (shutil_copy2 _ _ _) => apply shutil_copy2_no_exit
  | |- no_exit (bind _ _) => apply no_exit_bind; [|intros ?]
  | |- no_exit (try_except _ _) => apply no_exit_try_except; [|intros ? ? ?]
  | |- no_exit (with_temporary_directory _ _) =>
      apply with_temporary_directory_no_exit; intros ?
  | |- no_exit (if _ then _ else _) => apply no_exit_if
  | |- no_exit (let '(_, _) := ?p in _) => destruct p
  | |- no_exit (match ?x with _ => _ end) => destruct x
  | H : Some _ = Some _ |- _ => injection H as <-
  | H : None = Some _ |- _ => discriminate H
  | H : match ?x with _ => _ end = Some _ |- _ => destruct x
  end.

Lemma github_api_request_no_exit env endpoint method data :
  no_exit (github_api_request env endpoint method data).
Proof. unfold github_api_request. repeat no_exit_step. Qed.

Lemma check_fork_exists_no_exit env org repo_name fork_owner :
  no_exit (check_fork_exists env org repo_name fork_owner).
Proof.
  unfold check_fork_exists.
  repeat first [ simple apply github_api_request_no_exit | no_exit_step ].
Qed.

Lemma create_fork_no_exit env org repo_name : no_exit (create_fork env org repo_name).
Proof.
  unfold create_fork.
  repeat first [ simple apply github_api_request_no_exit | no_exit_step ].
Qed.

Lemma ensure_fork_no_exit env org repo_name fork_owner dry_run :
  no_exit (ensure_fork env org repo_name fork_owner dry_run).
Proof.
  unfold ensure_fork.
  repeat first [ simple apply check_fork_exists_no_exit
               | simple apply create_fork_no_exit | no_exit_step ].
Qed.

Lemma process_files_no_exit env repo_name dry_run rules : forall acc,
  no_exit (process_files env repo_name dry_run rules acc).
Proof.
  induction rules as [|fc rest IH]; intros acc; cbn [process_files].
  - apply no_exit_ret.
  - apply no_exit_bind; [|intros ?; apply IH].
    unfold process_file, sync_file, compare_files. repeat no_exit_step.
Qed.

Lemma git_add_each_no_exit env repo_path files : no_exit (git_add_each env repo_path files).
Proof.
  induction files as [|f rest IH]; cbn [git_add_each]; [apply no_exit_ret|].
  apply no_exit_bind; [apply run_git_no_exit | intros _; exact IH].
Qed.

Lemma create_pull_request_no_exit env org repo_name fork_owner branch title body base :
  no_exit (create_pull_request env org repo_name fork_owner branch title body base).
Proof.
  unfold create_pull_request.
  repeat first [ simple apply github_api_request_no_exit | no_exit_step ].
Qed.

Lemma publish_changes_no_exit env org repo_name fork_owner repo_path dry_run files :
  no_exit (publish_changes env org repo_name fork_owner repo_path dry_run files).
Proof.
  unfold publish_changes, create_branch_and_commit.
  repeat first [ simple apply git_add_each_no_exit
               | simple apply create_pull_request_no_exit | no_exit_step ].
Qed.

Lemma acquire_working_tree_no_exit env tmpdir org repo_name fork_owner dry_run :
  no_exit (acquire_working_tree env tmpdir org repo_name fork_owner dry_run).
Proof. unfold acquire_working_tree, setup_git_credentials. repeat no_exit_step. Qed.

(** [sync_repository] returns or raises; it never exits the process. *)
Lemma sync_repository_no_exit env org repo_name fork_owner config dry_run :
  no_exit (sync_repository env org repo_name fork_owner config dry_run).
Proof.
  unfold sync_repository.
  repeat first [ simple apply ensure_fork_no_exit
               | simple apply acquire_working_tree_no_exit
               | simple apply process_files_no_exit
               | simple apply publish_changes_no_exit | no_exit_step ].
Qed.

(** ** Batch runner: isolation of failures *)

Lemma successes_cons o os :
  successes (o :: os) = ((if succeeded o then 1 else 0) + successes os)%nat.
Proof.
  unfold successes. rewrite filter_cons.
  destruct (decide (succeeded o = true)) as [E|E].
  - rewrite E. reflexivity.
  - destruct (succeeded o); [congruence|reflexivity].
Qed.

Lemma successes_app os1 os2 :
  successes (os1 ++ os2) = (successes os1 + successes os2)%nat.
Proof. unfold successes. rewrite filter_app, length_app. reflexivity. Qed.

Lemma sync_each_outcomes env org fork_owner config dry_run repositories :
  forall n w,
    sync_each env org fork_owner config dry_run repositories n w
    = (Ret (n + successes
                  (fst (batch_outcomes env org fork_owner config dry_run
                          repositories w)))%nat,
       snd (batch_outcomes env org fork_owner config dry_run repositories w)).
Proof.
  induction repositories as [|r rest IH]; intros n w;
    cbn [sync_each batch_outcomes].
  { cbn. rewrite Nat.add_0_r. reflexivity. }
  pose proof (sync_repository_no_exit env org r fork_owner config dry_run w) as Hne.
  unfold bind at 1. unfold try_except at 1. unfold bind at 1.
  destruct (sync_repository env org r fork_owner config dry_run w) as [[b|e|c] w'].
  - destruct (batch_outcomes env org fork_owner config dry_run rest w')
      as [os wf] eqn:Eb.
    destruct b; cbn [ret fst snd]; rewrite IH, Eb; cbn [fst snd];
      rewrite successes_cons; cbn [succeeded]; f_equal; f_equal; lia.
  - cbn [bind print ret fst snd].
    destruct (batch_outcomes env org fork_owner config dry_run rest _)
      as [os wf] eqn:Eb.
    rewrite IH. cbn [print snd] in Eb. rewrite Eb. cbn [fst snd].
    rewrite successes_cons. reflexivity.
  - exfalso. exact (Hne c eq_refl).
Qed.

Lemma batch_outcomes_length env org fork_owner config dry_run repositories :
  forall w,
    List.length (fst (batch_outcomes env org fork_owner config dry_run repositories w))
    = List.length repositories.
Proof.
  induction repositories as [|r rest IH]; intros w; cbn [batch_outcomes];
    [reflexivity|].
  destruct (sync_repository env org r fork_owner config dry_run w) as [o w'].
  match goal with
  | |- context [batch_outcomes _ _ _ _ _ rest ?x] =>
      specialize (IH x);
      destruct (batch_outcomes env org fork_owner config dry_run rest x)
  end.
  cbn in *. rewrite IH. reflexivity.
Qed.

Lemma batch_outcomes_app env org fork_owner config dry_run l1 l2 :
  forall w,
    batch_outcomes env org fork_owner config dry_run (l1 ++ l2) w
    = let '(os1, w1) := batch_outcomes env org fork_owner config dry_run l1 w in
      let '(os2, w2) := batch_outcomes env org fork_owner config dry_run l2 w1 in
      ((os1 ++ os2)%list, w2).
Proof.
  induction l1 as [|r rest IH]; intros w; cbn [batch_outcomes app].
  { destruct (batch_outcomes env org fork_owner config dry_run l2 w); reflexivity. }
  destruct (sync_repository env org r fork_owner config dry_run w) as [o w'].
  rewrite IH.
  match goal with
  | |- context [batch_outcomes _ _ _ _ _ rest ?x] =>
      destruct (batch_outcomes env org fork_owner config dry_run rest x) as [os1 w1]
  end.
  destruct (batch_outcomes env org fork_owner config dry_run l2 w1); reflexivity.
Qed.

(** C3. When processing repository [k] raises, the loop prints the failure,
    goes on with every repository after [k] from the world [k] left, and
    returns: the batch has one outcome per repository, and the count it
    returns is the number of successes among the repositories before [k] plus
    the number among those after it. *)
Theorem C3_batch_survives_a_raising_repository (env : Env) org fork_owner config
    dry_run pre k post w e :
  let before := batch_outcomes env org fork_owner config dry_run pre w in
  let failed := sync_repository env org k fork_owner config dry_run (snd before) in
  fst failed = Raise e ->
  let after :=
    batch_outcomes env org fork_owner config dry_run post
      (snd (print (LogFailedToProcess k) (snd failed))) in
  sync_each env org fork_owner config dry_run (pre ++ k :: post) 0 w
    = (Ret (successes (fst before) + successes (fst after))%nat, snd after)
  /\ batch_outcomes env org fork_owner config dry_run (pre ++ k :: post) w
     = ((fst before ++ Raise e :: fst after)%list, snd after)
  /\ List.length (fst before) = List.length pre
  /\ List.length (fst after) = List.length post.
Proof.
  intros before failed He after.
  assert (batch_outcomes env org fork_owner config dry_run (pre ++ k :: post) w
          = ((fst before ++ Raise e :: fst after)%list, snd after)) as Hb.
  { rewrite batch_outcomes_app. subst after failed before.
    destruct (batch_outcomes env org fork_owner config dry_run pre w) as [os1 w1].
    cbn [fst snd] in *. cbn [batch_outcomes].
    destruct (sync_repository env org k fork_owner config dry_run w1) as [o wk].
    cbn [fst snd] in *. subst o.
    destruct (batch_outcomes env org fork_owner config dry_run post _);
      reflexivity. }
  split; [|split; [exact Hb|split; apply batch_outcomes_length]].
  rewrite sync_each_outcomes, Hb. cbn [fst snd].
  rewrite successes_app, successes_cons. reflexivity.
Qed.

Lemma C3_witness :
  let env :=
    raising_env "https://api.github.com/repos/bot/b" codeowners_tree codeowners_tree in
  fst (sync_each env "org" "bot" (codeowners_config None) false ["a"; "b"; "c"] 0
         empty_world) = Ret 2%nat
  /\ fst (batch_outcomes env "org" "bot" (codeowners_config None) false
            ["a"; "b"; "c"] empty_world)
     = [Ret true; Raise (OtherError "ValueError"); Ret true].
Proof.
  intros env.
  destruct (C3_batch_survives_a_raising_repository env "org" "bot"
              (codeowners_config None) false ["a"] "b" ["c"] empty_world
              (OtherError "ValueError")) as (Hs & Hb & _).
  - vm_compute. reflexivity.
  - cbv zeta in Hs, Hb. cbn [app] in Hs, Hb. rewrite Hs, Hb.
    split; vm_compute; reflexivity.
Defined.

(** ** Batch runner: which repositories are processed *)

(** Without an [exclude_repos] key the default applies and org-infra is left
    out. *)
Lemma org_infra_excluded_by_default config requested repositories :
  cfg_exclude_repos config = None ->
  "org-infra" ∉ repositories_to_process config requested repositories.
Proof.
  intros Hc Hin. unfold repositories_to_process, filter_excluded in Hin.
  rewrite Hc in Hin. cbn [from_option id] in Hin.
  apply list_elem_of_filter in Hin as [Hf _].
  apply Is_true_true, negb_true_iff, bool_decide_eq_false_1 in Hf.
  apply Hf. apply list_elem_of_here.
Qed.

(** C9 (the code departs from it). With an [exclude_repos] key that does not
    name org-infra, the default is replaced, not extended: org-infra stays in
    the list of repositories and [main] hands it to [sync_repository]. *)
Theorem C9_configured_exclusions_replace_the_default :
  let config := codeowners_config (Some ["sandbox"]) in
  let manifest := peribolos_of "org" ["org-infra"; "website"; "sandbox"] in
  let env :=
    sample_env (fun _ => Ok (response_of 200)) codeowners_tree codeowners_tree
      config (Some manifest) in
  let args :=
    {| arg_org := "org"; arg_config := "sync-config.yml"; arg_dry_run := true;
       arg_repos := None |} in
  repositories_to_process config None ["org-infra"; "website"; "sandbox"]
    = ["org-infra"; "website"]
  /\ fst (main env args empty_world) = Ret tt
  /\ LogProcessing "org" "org-infra" ∈ w_out (snd (main env args empty_world))
  /\ LogSummary 2 2 ∈ w_out (snd (main env args empty_world)).
Proof.
  intros config manifest env args.
  split; [vm_compute; reflexivity|].
  split; [vm_compute; reflexivity|].
  split; vm_compute;
    repeat first [ apply list_elem_of_here | apply list_elem_of_further ].
Qed.

(** * Further properties of the script *)

(** ** The allow-list, read as a language *)

(** X1. Only GET, POST and DELETE can pass the allow-list, whatever the
    endpoint. *)
Theorem X1_allow_list_methods endpoint method :
  validate_github_api_request endpoint method = true ->
  method = "GET" \/ method = "POST" \/ method = "DELETE".
Proof.
  unfold validate_github_api_request. intros H.
  apply existsb_exists in H as [[pattern m] [Hin Hb]].
  apply andb_prop in Hb as [_ He]. apply String.eqb_eq in He. subst m.
  unfold allowed_patterns in Hin. cbn [In] in Hin.
  repeat match goal with
         | H : _ \/ _ |- _ => destruct H as [H | H]
         | H : (_, _) = (_, _) |- _ => injection H as _ <-
         | H : False |- _ => destruct H
         end; auto.
Qed.

Lemma X1_witness :
  "GET" = "GET" \/ "GET" = "POST" \/ "GET" = "DELETE".
Proof.
  apply (X1_allow_list_methods "https://api.github.com/user" "GET").
  vm_compute. reflexivity.
Defined.

Lemma plus_matches a rest tail : forall s at_start,
  s <> [] ->
  forallb (Re.atom_matches a) s = true ->
  Re.match_here rest false tail = true ->
  Re.match_here (Re.NPlus a :: rest) at_start (s ++ tail)%list = true.
Proof.
  induction s as [|c s IH]; intros at_start Hne Hall Hrest; [congruence|].
  cbn [forallb] in Hall. apply andb_prop in Hall as [Hc Hs].
  cbn [Re.match_here app]. rewrite Hc. cbn [andb].
  destruct s as [|c' s'].
  - cbn [app]. rewrite Hrest. apply orb_true_r.
  - apply orb_true_iff. left.
    apply (IH false); [discriminate | exact Hs | exact Hrest].
Qed.

Lemma segment_name_chars name :
  segment_name name = true ->
  list_ascii_of_string name <> []
  /\ forallb (Re.atom_matches (Re.ANotIn ["/"%char])) (list_ascii_of_string name) = true.
Proof.
  unfold segment_name. intros H. apply andb_prop in H as [Hn Hs]. split.
  - destruct name; [discriminate Hn | discriminate].
  - clear Hn. induction (list_ascii_of_string name) as [|c l IH]; [reflexivity|].
    cbn [forallb] in *. apply andb_prop in Hs as [Hc Hl].
    rewrite (IH Hl), andb_true_r. cbn. rewrite orb_false_r. exact Hc.
Qed.

Ltac compiled_pattern :=
  match goal with
  | |- context [Re.compile ?p] =>
      let E := fresh "E" in
      destruct (Re.compile p) as [nodes|] eqn:E; vm_compute in E;
      [injection E as <- | discriminate E]
  end.

Lemma bol_matches rest s :
  Re.match_here (Re.NBol :: rest) true s = Re.match_here rest true s.
Proof. reflexivity. Qed.

Lemma lit_matches c rest at_start s :
  Re.match_here (Re.NOne (Re.ALit c) :: rest) at_start (c :: s)
  = Re.match_here rest false s.
Proof. cbn [Re.match_here Re.atom_matches]. rewrite Ascii.eqb_refl. reflexivity. Qed.

Lemma dot_matches c rest at_start s :
  c <> Re.newline ->
  Re.match_here (Re.NOne Re.ADot :: rest) at_start (c :: s)
  = Re.match_here rest false s.
Proof.
  intros Hc. cbn [Re.match_here Re.atom_matches].
  destruct (Ascii.eqb_spec c Re.newline); [contradiction|reflexivity].
Qed.

Ltac literal_prefix :=
  rewrite ?bol_matches;
  repeat first [ rewrite lit_matches | rewrite dot_matches by discriminate ].

Ltac two_segments Ho Hr :=
  unfold Re.re_match; compiled_pattern;
  rewrite !list_ascii_of_string_app;
  cbn -[Re.match_here app]; cbn [app];
  literal_prefix;
  apply plus_matches; [apply Ho | apply Ho |];
  literal_prefix;
  apply plus_matches; [apply Hr | apply Hr |];
  vm_compute; reflexivity.

(** X3. The endpoints the script builds for an owner and a repository that
    are proper path segments pass the allow-list: the fork lookup (GET), the
    fork creation and the pull request (POST). *)
Theorem X3_script_endpoints_allow_listed owner repo_name :
  segment_name owner = true ->
  segment_name repo_name = true ->
  validate_github_api_request
    (GITHUB_API ++ "/repos/" ++ owner ++ "/" ++ repo_name) "GET" = true
  /\ validate_github_api_request
       (GITHUB_API ++ "/repos/" ++ owner ++ "/" ++ repo_name ++ "/forks") "POST" = true
  /\ validate_github_api_request
       (GITHUB_API ++ "/repos/" ++ owner ++ "/" ++ repo_name ++ "/pulls") "POST" = true.
Proof.
  intros Ho Hr. apply segment_name_chars in Ho, Hr.
  unfold validate_github_api_request, allowed_patterns. cbn [existsb].
  repeat split; apply orb_true_iff.
  - right. apply orb_true_iff. left. apply andb_true_intro. split; [|reflexivity].
    unfold Re.re_match; compiled_pattern.
    rewrite !list_ascii_of_string_app.
    rewrite <- (app_nil_r (list_ascii_of_string repo_name)).
    cbn -[Re.match_here app]; cbn [app].
    literal_prefix.
    apply plus_matches; [apply Ho | apply Ho |].
    literal_prefix.
    apply plus_matches; [apply Hr | apply Hr |].
    reflexivity.
  - right. apply orb_true_iff. right. apply orb_true_iff. left.
    apply andb_true_intro. split; [|reflexivity]. two_segments Ho Hr.
  - right. do 2 (apply orb_true_iff; right). apply orb_true_iff. left.
    apply andb_true_intro. split; [|reflexivity]. two_segments Ho Hr.
Qed.

Lemma X3_witness :
  validate_github_api_request (GITHUB_API ++ "/repos/" ++ "bot" ++ "/" ++ "repo") "GET"
    = true
  /\ validate_github_api_request
       (GITHUB_API ++ "/repos/" ++ "bot" ++ "/" ++ "repo" ++ "/forks") "POST" = true
  /\ validate_github_api_request
       (GITHUB_API ++ "/repos/" ++ "bot" ++ "/" ++ "repo" ++ "/pulls") "POST" = true.
Proof.
  apply (X3_script_endpoints_allow_listed "bot" "repo"); vm_compute; reflexivity.
Defined.

(** X2. The dots of [GITHUB_API] are not escaped in the patterns, so the
    allow-list does not pin the host: any character but a newline may stand
    where the two dots of the host name are. *)
Theorem X2_allow_list_host_not_pinned (c1 c2 : ascii) :
  c1 <> Re.newline -> c2 <> Re.newline ->
  validate_github_api_request
    ("https://api" ++ String c1 ("github" ++ String c2 "com/user")) "GET" = true.
Proof.
  intros H1 H2.
  unfold validate_github_api_request, allowed_patterns. cbn [existsb].
  apply orb_true_iff. left. apply andb_true_intro. split; [|reflexivity].
  unfold Re.re_match. compiled_pattern.
  repeat (progress (rewrite ?list_ascii_of_string_app; cbn -[Re.match_here app]));
    cbn [app].
  rewrite bol_matches.
  repeat first [ rewrite lit_matches
               | rewrite dot_matches by assumption ].
  reflexivity.
Qed.

Lemma X2_witness :
  validate_github_api_request "https://api-github-com/user" "GET" = true.
Proof.
  apply (X2_allow_list_host_not_pinned "-" "-"); discriminate.
Defined.

Lemma not_in_set_mismatch c rest at_start s :
  Re.match_here (Re.NPlus (Re.ANotIn [c]) :: rest) at_start (c :: s) = false.
Proof.
  cbn [Re.match_here Re.atom_matches existsb]. rewrite Ascii.eqb_refl. reflexivity.
Qed.

(** X4. With an empty owner the endpoint has an empty path segment, which no
    pattern accepts: the fork lookup, the fork creation and the pull request
    are all refused by the allow-list, for every repository name. *)
Theorem X4_empty_owner_refused repo_name method :
  validate_github_api_request (GITHUB_API ++ "/repos/" ++ "" ++ "/" ++ repo_name) method
    = false
  /\ validate_github_api_request
       (GITHUB_API ++ "/repos/" ++ "" ++ "/" ++ repo_name ++ "/forks") method = false
  /\ validate_github_api_request
       (GITHUB_API ++ "/repos/" ++ "" ++ "/" ++ repo_name ++ "/pulls") method = false.
Proof.
  unfold validate_github_api_request, allowed_patterns. cbn [existsb].
  repeat split;
    repeat match goal with
           | |- context [Re.re_match ?p ?s] =>
               let E := fresh "E" in
               assert (Re.re_match p s = false) as E;
               [ unfold Re.re_match; compiled_pattern;
                 repeat (progress (rewrite ?list_ascii_of_string_app;
                                   cbn -[Re.match_here app]));
                 cbn [app]; literal_prefix;
                 first [ apply not_in_set_mismatch | reflexivity ]
               | rewrite E; clear E ]
           end; reflexivity.
Qed.

(** ** The gateway is the only way to the network *)

Lemma adds_same_events {A} P Q (m : M A) :
  (forall w, w_git (snd (m w)) = w_git w /\ w_net (snd (m w)) = w_net w) ->
  keeps (adds P Q) m.
Proof.
  intros H w. destruct (H w) as [Hg Hn]. split; intros x Hx.
  - rewrite Hg in Hx. auto.
  - rewrite Hn in Hx. auto.
Qed.

Lemma with_temporary_directory_adds {A} P Q env (body : string -> M A) :
  (forall d, keeps (adds P Q) (body d)) ->
  keeps (adds P Q) (with_temporary_directory env body).
Proof.
  intros Hb w. unfold with_temporary_directory.
  destruct (e_mkdtemp env (w_tmp w)) as [d|e]; [|apply adds_refl].
  specialize (Hb d (count_tmpdir w)).
  destruct (body d (count_tmpdir w)) as [o w']. exact Hb.
Qed.

Lemma os_path_exists_adds P Q p : keeps (adds P Q) (os_path_exists p).
Proof. apply adds_same_events. intros w. split; reflexivity. Qed.

Lemma filecmp_cmp_adds P Q env a b : keeps (adds P Q) (filecmp_cmp env a b).
Proof.
  apply adds_same_events. intros w. unfold filecmp_cmp.
  destruct (e_source env !! a), (w_tree w !! b); split; reflexivity.
Qed.

Lemma shutil_copy2_adds P Q env a b : keeps (adds P Q) (shutil_copy2 env a b).
Proof.
  apply adds_same_events. intros w. unfold shutil_copy2.
  destruct (e_source env !! a); split; reflexivity.
Qed.

Lemma fetch_peribolos_file_adds P Q env org : keeps (adds P Q) (fetch_peribolos_file env org).
Proof.
  apply adds_same_events. intros w. unfold fetch_peribolos_file.
  destruct (e_peribolos env org); split; reflexivity.
Qed.

Lemma load_sync_config_adds P Q env path : keeps (adds P Q) (load_sync_config env path).
Proof. apply adds_same_events. intros w. split; reflexivity. Qed.

Lemma sys_exit_adds {A} P Q code : keeps (adds P Q) (@sys_exit A code).
Proof. apply adds_same_events. intros w. split; reflexivity. Qed.

(** Leaves that add no request and whose git commands are unconstrained. *)
Ltac silent_leaf :=
  match goal with
  | |- keeps _ (print _) => apply print_adds
  | |- keeps _ (time_sleep _) => apply time_sleep_adds
  | |- keeps _ (os_path_exists _) => apply os_path_exists_adds
  | |- keeps _ (filecmp_cmp _ _ _) => apply filecmp_cmp_adds
  | |- keeps _ (shutil_copy2 _ _ _) => apply shutil_copy2_adds
  | |- keeps _ (fetch_peribolos_file _ _) => apply fetch_peribolos_file_adds
  | |- keeps _ (load_sync_config _ _) => apply load_sync_config_adds
  | |- keeps _ (sys_exit _) => apply sys_exit_adds
  | |- keeps _ (with_temporary_directory _ _) =>
      apply with_temporary_directory_adds; intros ?
  end.

Lemma github_api_request_guarded env endpoint method data :
  keeps guarded (github_api_request env endpoint method data).
Proof.
  unfold github_api_request.
  destruct (validate_github_api_request endpoint method) eqn:Hv; cbn [negb].
  - apply (keeps_try_except _ (adds_trans _ _)).
    + apply (keeps_bind _ (adds_trans _ _)).
      * apply requests_request_adds. exact Hv.
      * intros r. apply (keeps_ret _ (adds_refl _ _)).
    + intros e h He. destruct e; try discriminate He. injection He as <-.
      apply (keeps_bind _ (adds_trans _ _)); [apply print_adds|intros _].
      apply (keeps_ret _ (adds_refl _ _)).
  - apply (keeps_bind _ (adds_trans _ _)); [apply print_adds|intros _].
    apply (keeps_ret _ (adds_refl _ _)).
Qed.

Ltac guarded_step :=
  first [ silent_leaf
        | match goal with
          | |- keeps _ (github_api_request _ _ _ _) => apply github_api_request_guarded
          | |- keeps _ (run_git _ _ _) => apply run_git_adds; exact I
          end
        | keeps_step (adds_refl (fun _ : git_cmd => True) allow_listed)
                     (adds_trans (fun _ : git_cmd => True) allow_listed) ].

Lemma process_files_guarded env repo_name dry_run rules : forall acc,
  keeps guarded (process_files env repo_name dry_run rules acc).
Proof.
  induction rules as [|fc rest IH]; intros acc; cbn [process_files].
  - apply (keeps_ret _ (adds_refl _ _)).
  - apply (keeps_bind _ (adds_trans _ _)); [|intros ?; apply IH].
    unfold process_file, sync_file, compare_files. repeat guarded_step.
Qed.

Lemma git_add_each_guarded env repo_path files :
  keeps guarded (git_add_each env repo_path files).
Proof.
  induction files as [|f rest IH]; cbn [git_add_each].
  - apply (keeps_ret _ (adds_refl _ _)).
  - apply (keeps_bind _ (adds_trans _ _)); [|intros _; exact IH].
    apply run_git_adds. exact I.
Qed.

Lemma sync_repository_guarded env org repo_name fork_owner config dry_run :
  keeps guarded (sync_repository env org repo_name fork_owner config dry_run).
Proof.
  unfold sync_repository, ensure_fork, check_fork_exists, create_fork,
    acquire_working_tree, setup_git_credentials, publish_changes,
    create_branch_and_commit, create_pull_request.
  repeat first [ simple apply process_files_guarded
               | simple apply git_add_each_guarded
               | guarded_step ].
Qed.

Lemma sync_each_guarded env org fork_owner config dry_run repositories : forall n,
  keeps guarded (sync_each env org fork_owner config dry_run repositories n).
Proof.
  induction repositories as [|r rest IH]; intros n; cbn [sync_each].
  - apply (keeps_ret _ (adds_refl _ _)).
  - apply (keeps_bind _ (adds_trans _ _)); [|intros ?; apply IH].
    repeat first [ simple apply sync_repository_guarded | guarded_step ].
Qed.

(** X5. Every request the script sends, from the start of [main] to its end
    and whatever the collaborators answer, passed the allow-list: nothing
    reaches the network around the gateway. *)
Theorem X5_main_sends_only_allow_listed_requests (env : Env) args w rq :
  rq ∈ w_net (snd (main env args w)) ->
  rq ∈ w_net w
  \/ validate_github_api_request (rq_url rq) (rq_method rq) = true.
Proof.
  assert (keeps guarded (main env args)) as H.
  { unfold main, get_authenticated_user, extract_repositories.
    repeat first [ simple apply sync_each_guarded | guarded_step ]. }
  intros Hin. destruct (H w) as [_ Hn]. apply Hn in Hin. exact Hin.
Qed.

Lemma X5_witness :
  let env := plain_env 200 codeowners_tree codeowners_tree in
  let args :=
    {| arg_org := "org"; arg_config := "sync-config.yml"; arg_dry_run := false;
       arg_repos := None |} in
  let rq := {| rq_method := "GET"; rq_url := "https://api.github.com/user";
               rq_json := None |} in
  rq ∈ w_net empty_world
  \/ validate_github_api_request (rq_url rq) (rq_method rq) = true.
Proof.
  intros env args rq.
  apply (X5_main_sends_only_allow_listed_requests env args empty_world rq).
  vm_compute. apply list_elem_of_here.
Defined.

(** ** Where exceptions can come from *)

Lemma try_except_never_raises {A} (body : M A) handler w :
  (forall e, exists h, handler e = Some h /\ forall w', exists a, fst (h w') = Ret a) ->
  forall e, fst (try_except body handler w) <> Raise e.
Proof.
  intros Hh e. unfold try_except.
  destruct (body w) as [[a|e'|c] w1]; cbn; try discriminate.
  destruct (Hh e') as (h & -> & Hr). destruct (Hr w1) as [a Ha].
  rewrite Ha. discriminate.
Qed.

(** X6. Once the fork step is over and the temporary directory exists,
    nothing escapes [sync_repository]: an exception it raises was raised by
    the fork step, which is outside the guarded block, or by the creation of
    the temporary directory. *)
Theorem X6_exceptions_escape_only_before_the_clone (env : Env) org repo_name
    fork_owner config dry_run w e :
  fst (sync_repository env org repo_name fork_owner config dry_run w) = Raise e ->
  let w0 := snd (print (LogProcessing org repo_name) w) in
  fst (ensure_fork env org repo_name fork_owner dry_run w0) = Raise e
  \/ (fst (ensure_fork env org repo_name fork_owner dry_run w0) = Ret true
      /\ e_mkdtemp env (w_tmp (snd (ensure_fork env org repo_name fork_owner
                                      dry_run w0))) = Err e).
Proof.
  cbv zeta. unfold sync_repository. rewrite bind_print. intros H.
  destruct (default [] (cfg_files_to_sync config)) as [|fc fcs].
  { discriminate H. }
  unfold bind at 1 in H.
  destruct (ensure_fork env org repo_name fork_owner dry_run _) as [[b|e'|c] w1];
    cbn [fst snd] in *.
  - destruct b; cbn [negb] in H; [|discriminate H].
    right. split; [reflexivity|].
    unfold with_temporary_directory in H.
    destruct (e_mkdtemp env (w_tmp w1)) as [d|e'].
    + exfalso.
      match type of H with
      | context [try_except ?body ?handler ?x] =>
          pose proof (try_except_never_raises body handler x) as Hn;
          destruct (try_except body handler x) as [o w']
      end.
      cbn [fst] in *.
      match type of Hn with
      | ?P -> _ => assert P as Hc
      end.
      { intros [ | |?| |?]; eexists; (split; [reflexivity|]);
          intros w''; eexists; reflexivity. }
      exact (Hn Hc e H).
    + cbn in H. congruence.
  - left. exact H.
  - discriminate H.
Qed.

Lemma X6_witness :
  let env :=
    raising_env "https://api.github.com/repos/bot/b" codeowners_tree codeowners_tree in
  let w0 := snd (print (LogProcessing "org" "b") empty_world) in
  fst (ensure_fork env "org" "b" "bot" false w0) = Raise (OtherError "ValueError")
  \/ (fst (ensure_fork env "org" "b" "bot" false w0) = Ret true
      /\ e_mkdtemp env (w_tmp (snd (ensure_fork env "org" "b" "bot" false w0)))
         = Err (OtherError "ValueError")).
Proof.
  intros env.
  apply (X6_exceptions_escape_only_before_the_clone env "org" "b" "bot"
           (codeowners_config None) false empty_world (OtherError "ValueError")).
  vm_compute. reflexivity.
Defined.

(** ** The batch count *)

Lemma successes_bound os : (successes os <= List.length os)%nat.
Proof.
  induction os as [|o os IH]; [reflexivity|].
  rewrite successes_cons. cbn [List.length]. destruct (succeeded o); lia.
Qed.

(** X7. The loop of [main] always comes back with a count: it neither raises
    nor exits, whatever happens to the repositories, and the count grows by
    at most one per repository. *)
Theorem X7_loop_returns_a_bounded_count (env : Env) org fork_owner config dry_run
    repositories n w :
  exists m,
    fst (sync_each env org fork_owner config dry_run repositories n w) = Ret m
    /\ (n <= m <= n + List.length repositories)%nat.
Proof.
  rewrite sync_each_outcomes. eexists. split; [reflexivity|].
  pose proof (successes_bound
                (fst (batch_outcomes env org fork_owner config dry_run
                        repositories w))) as Hb.
  rewrite batch_outcomes_length in Hb. lia.
Qed.

(** ** Which repositories are processed *)

(** X8. The list the loop runs over keeps the manifest's order and holds
    exactly the manifest's repositories that are requested (when a non-empty
    [--repos] list is given) and not excluded (by the configured list, or by
    the default [org-infra] when there is none). *)
Theorem X8_repositories_to_process_spec config requested repositories :
  repositories_to_process config requested repositories `sublist_of` repositories
  /\ forall r,
       r ∈ repositories_to_process config requested repositories
       <-> r ∈ repositories
           /\ match requested with
              | Some (name :: names) => r ∈ name :: names
              | _ => True
              end
           /\ r ∉ default ["org-infra"] (cfg_exclude_repos config).
Proof.
  unfold repositories_to_process, filter_excluded, filter_requested. split.
  - etransitivity; [apply sublist_filter|].
    destruct requested as [[|name names]|]; try reflexivity.
    apply sublist_filter.
  - intros r. rewrite list_elem_of_filter.
    rewrite negb_True, bool_decide_spec.
    destruct requested as [[|name names]|]; try tauto.
    rewrite list_elem_of_filter, bool_decide_spec. tauto.
Qed.

Example requested_first_name_counts :
  filter_requested (Some ["a"; "c"]) ["a"; "b"; "c"] = ["a"; "c"].
Proof. vm_compute. reflexivity. Qed.

(** ** A real run brings the tree in sync, and stays there *)










(** Two rules that share a destination and differ in their sources undo
    each other: the second run copies again. *)
Example shared_destination_is_not_idempotent :
  let env := plain_env 200 {[ "a" := "1"; "b" := "2" ]} ∅ in
  let rules :=
    [ {| fc_source := "a"; fc_destination := Some "x"; fc_exclude_repos := None |};
      {| fc_source := "b"; fc_destination := Some "x"; fc_exclude_repos := None |} ] in
  let w1 := snd (process_files env "repo" false rules [] empty_world) in
  fst (process_files env "repo" false rules [] w1) = Ret ["x"; "x"].
Proof. vm_compute. reflexivity. Qed.

(** ** Branch, commit and push *)

Lemma run_git_ok env cwd cmd w t :
  e_git env cwd cmd (w_tree w) = Ok t ->
  fst (run_git env cwd cmd w) = Ret tt
  /\ w_git (snd (run_git env cwd cmd w)) = (cwd, cmd) :: w_git w.
Proof. unfold run_git. intros ->. split; reflexivity. Qed.

Lemma git_add_each_ok env repo_path files : forall w,
  (forall cmd t, exists t', e_git env repo_path cmd t = Ok t') ->
  fst (git_add_each env repo_path files w) = Ret tt
  /\ w_git (snd (git_add_each env repo_path files w))
     = (rev (map (fun f => (repo_path, GitAdd f)) files) ++ w_git w)%list.
Proof.
  induction files as [|f rest IH]; intros w Hok; cbn [git_add_each].
  { split; reflexivity. }
  destruct (Hok (GitAdd f) (w_tree w)) as [t Ht].
  destruct (run_git_ok env repo_path (GitAdd f) w t Ht) as [Hr Hg].
  apply pair_fst_snd in Hr. rewrite (bind_ret _ _ _ _ _ Hr).
  destruct (IH (snd (run_git env repo_path (GitAdd f) w)) Hok) as [Hr' Hg'].
  split; [exact Hr'|]. rewrite Hg', Hg. cbn [map rev].
  rewrite <- app_assoc. reflexivity.
Qed.

(** X11. When git accepts every command, [create_branch_and_commit] returns
    [True] after running, in this order and in the repository: checkout of the
    new branch, one add per changed file in the order of the list, the commit,
    and the push of the branch to origin; nothing else is run. *)
Theorem X11_branch_commit_push_sequence (env : Env) repo_path branch_name
    files_changed commit_message w :
  (forall cmd t, exists t', e_git env repo_path cmd t = Ok t') ->
  let r := create_branch_and_commit env repo_path branch_name files_changed
             commit_message w in
  fst r = Ret true
  /\ w_git (snd r)
     = ((repo_path, GitPush "origin" branch_name)
        :: (repo_path, GitCommit commit_message)
        :: rev (map (fun f => (repo_path, GitAdd f)) files_changed)
        ++ (repo_path, GitCheckoutNew branch_name) :: w_git w)%list.
Proof.
  intros Hok r. subst r. unfold create_branch_and_commit, try_except.
  destruct (Hok (GitCheckoutNew branch_name) (w_tree w)) as [t1 H1].
  destruct (run_git_ok env repo_path _ w t1 H1) as [R1 G1].
  apply pair_fst_snd in R1. rewrite (bind_ret _ _ _ _ _ R1).
  set (w1 := snd (run_git env repo_path (GitCheckoutNew branch_name) w)) in *.
  destruct (git_add_each_ok env repo_path files_changed w1 Hok) as [R2 G2].
  apply pair_fst_snd in R2. rewrite (bind_ret _ _ _ _ _ R2).
  set (w2 := snd (git_add_each env repo_path files_changed w1)) in *.
  destruct (Hok (GitCommit commit_message) (w_tree w2)) as [t3 H3].
  destruct (run_git_ok env repo_path _ w2 t3 H3) as [R3 G3].
  apply pair_fst_snd in R3. rewrite (bind_ret _ _ _ _ _ R3).
  set (w3 := snd (run_git env repo_path (GitCommit commit_message) w2)) in *.
  destruct (Hok (GitPush "origin" branch_name) (w_tree w3)) as [t4 H4].
  destruct (run_git_ok env repo_path _ w3 t4 H4) as [R4 G4].
  apply pair_fst_snd in R4. rewrite (bind_ret _ _ _ _ _ R4).
  rewrite bind_print. cbn [ret fst snd print w_git].
  split; [reflexivity|]. rewrite G4, G3, G2, G1. reflexivity.
Qed.

Lemma X11_witness :
  let env := plain_env 200 ∅ ∅ in
  let r := create_branch_and_commit env "/tmp/sync/repo" "sync-1" ["a"; "b"] "msg"
             empty_world in
  fst r = Ret true
  /\ w_git (snd r)
     = [ ("/tmp/sync/repo", GitPush "origin" "sync-1");
         ("/tmp/sync/repo", GitCommit "msg");
         ("/tmp/sync/repo", GitAdd "b");
         ("/tmp/sync/repo", GitAdd "a");
         ("/tmp/sync/repo", GitCheckoutNew "sync-1") ].
Proof.
  intros env.
  apply (X11_branch_commit_push_sequence env "/tmp/sync/repo" "sync-1" ["a"; "b"]
           "msg" empty_world).
  intros cmd t. destruct cmd; eexists; reflexivity.
Defined.

Lemma git_add_each_publishing env repo_path branch_name files message :
  forall some,
    (forall f, f ∈ some -> f ∈ files) ->
    keeps (adds (publishing_cmd branch_name files message) (fun _ => False))
          (git_add_each env repo_path some).
Proof.
  induction some as [|f rest IH]; intros Hsub; cbn [git_add_each].
  - apply (keeps_ret _ (adds_refl _ _)).
  - apply (keeps_bind _ (adds_trans _ _)).
    + apply run_git_adds. right. left. exists f.
      split; [apply Hsub, list_elem_of_here | reflexivity].
    + intros _. apply IH. intros f' Hf. apply Hsub, list_elem_of_further, Hf.
Qed.

(** X12. Whatever git answers, [create_branch_and_commit] runs no command
    but the checkout of the new branch, adds of files of the list (never
    anything wider), the commit and the push; it sends no request; and a
    [GitCommandError] never leaves it. *)
Theorem X12_branch_commit_push_is_confined (env : Env) repo_path branch_name
    files_changed commit_message w :
  let r := create_branch_and_commit env repo_path branch_name files_changed
             commit_message w in
  (forall c, c ∈ w_git (snd r) ->
             c ∈ w_git w
             \/ publishing_cmd branch_name files_changed commit_message (snd c))
  /\ (forall rq, rq ∈ w_net (snd r) -> rq ∈ w_net w)
  /\ fst r <> Raise GitCommandError.
Proof.
  intros r.
  assert (keeps (adds (publishing_cmd branch_name files_changed commit_message)
                      (fun _ => False))
                (create_branch_and_commit env repo_path branch_name files_changed
                   commit_message)) as Hk.
  { unfold create_branch_and_commit.
    apply (keeps_try_except _ (adds_trans _ _)).
    - apply (keeps_bind _ (adds_trans _ _));
        [apply run_git_adds; left; reflexivity | intros _].
      apply (keeps_bind _ (adds_trans _ _));
        [apply git_add_each_publishing; auto | intros _].
      apply (keeps_bind _ (adds_trans _ _));
        [apply run_git_adds; right; right; left; reflexivity | intros _].
      apply (keeps_bind _ (adds_trans _ _));
        [apply run_git_adds; right; right; right; reflexivity | intros _].
      apply (keeps_bind _ (adds_trans _ _)); [apply print_adds | intros _].
      apply (keeps_ret _ (adds_refl _ _)).
    - intros e h He. destruct e; try discriminate He. injection He as <-.
      apply (keeps_bind _ (adds_trans _ _)); [apply print_adds | intros _].
      apply (keeps_ret _ (adds_refl _ _)). }
  destruct (Hk w) as [Hg Hn]. fold r in Hg, Hn.
  split; [exact Hg|]. split.
  - intros rq Hr. destruct (Hn rq Hr) as [H|[]]. exact H.
  - subst r. unfold create_branch_and_commit, try_except.
    match goal with
    | |- context [bind ?m ?k w] => destruct (bind m k w) as [[b|[]|c] w']
    end; cbn; discriminate.
Qed.

(** ** Copying one file *)






Lemma sync_file_no_source env a b rel w :
  e_source env !! a = None ->
  sync_file env a b rel w
  = (Raise OSError,
     match w_tree w !! b with
     | Some _ => w
     | None => snd (print (LogIsMissing rel) w)
     end).
Proof.
  intros Hs. unfold sync_file.
  unfold bind at 1. unfold os_path_exists at 1.
  destruct (w_tree w !! b) as [d|] eqn:Ed.
  - rewrite (bool_decide_eq_true_2 (is_Some (Some d))) by eauto. cbv iota.
    unfold compare_files, bind, os_path_exists, filecmp_cmp, ret. rewrite Ed.
    rewrite (bool_decide_eq_true_2 (is_Some (Some d))) by eauto. cbn [negb].
    rewrite Hs. reflexivity.
  - rewrite (bool_decide_eq_false_2 (is_Some None)) by (intros [? ?]; discriminate).
    cbv iota. rewrite bind_print. unfold bind, shutil_copy2. cbn [print snd w_tree].
    rewrite Hs. reflexivity.
Qed.

(** X14. Called on a source that does not exist, [sync_file] raises, whether
    the destination is there or not, and the tree and the record of written
    files are left as they were. *)
Theorem X14_sync_file_without_source_raises (env : Env) source_path dest_path
    relative_path w :
  e_source env !! source_path = None ->
  let r := sync_file env source_path dest_path relative_path w in
  fst r = Raise OSError
  /\ w_tree (snd r) = w_tree w
  /\ w_writes (snd r) = w_writes w.
Proof.
  intros Hs. cbv zeta. rewrite (sync_file_no_source env _ _ _ w Hs).
  destruct (w_tree w !! dest_path); repeat split; reflexivity.
Qed.

Lemma X14_witness :
  fst (sync_file (plain_env 200 ∅ ∅) "SECURITY.md" "SECURITY.md" "SECURITY.md"
         empty_world) = Raise OSError.
Proof.
  apply (X14_sync_file_without_source_raises (plain_env 200 ∅ ∅) "SECURITY.md"
           "SECURITY.md" "SECURITY.md" empty_world).
  reflexivity.
Defined.

(** ** A dry run changes nothing *)

Lemma untouched_refl w : untouched w w.
Proof. repeat split. Qed.

Lemma untouched_trans w1 w2 w3 : untouched w1 w2 -> untouched w2 w3 -> untouched w1 w3.
Proof. unfold untouched. intros (?&?&?) (?&?&?). repeat split; congruence. Qed.

Lemma print_untouched l : keeps untouched (print l).
Proof. intros w. repeat split. Qed.

Lemma run_git_untouched env cwd cmd : keeps untouched (run_git env cwd cmd).
Proof.
  intros w. unfold run_git. destruct (e_git env cwd cmd (w_tree w)); repeat split.
Qed.

Lemma os_path_exists_untouched p : keeps untouched (os_path_exists p).
Proof. intros w. repeat split. Qed.

Lemma filecmp_cmp_untouched env a b : keeps untouched (filecmp_cmp env a b).
Proof.
  intros w. unfold filecmp_cmp.
  destruct (e_source env !! a), (w_tree w !! b); repeat split.
Qed.

Lemma with_temporary_directory_untouched {A} env (body : string -> M A) :
  (forall d, keeps untouched (body d)) ->
  keeps untouched (with_temporary_directory env body).
Proof.
  intros Hb w. unfold with_temporary_directory.
  destruct (e_mkdtemp env (w_tmp w)) as [d|e]; [|apply untouched_refl].
  specialize (Hb d (count_tmpdir w)).
  destruct (body d (count_tmpdir w)) as [o w']. exact Hb.
Qed.

Ltac untouched_step :=
  first
    [ match goal with
      | |- keeps _ (print _) => apply print_untouched
      | |- keeps _ (run_git _ _ _) => apply run_git_untouched
      | |- keeps _ (os_path_exists _) => apply os_path_exists_untouched
      | |- keeps _ (filecmp_cmp _ _ _) => apply filecmp_cmp_untouched
      | |- keeps _ (with_temporary_directory _ _) =>
          apply with_temporary_directory_untouched; intros ?
      end
    | keeps_step untouched_refl untouched_trans ].

Lemma process_files_dry_untouched env repo_name rules : forall acc,
  keeps untouched (process_files env repo_name true rules acc).
Proof.
  induction rules as [|fc rest IH]; intros acc; cbn [process_files].
  - apply (keeps_ret _ untouched_refl).
  - apply (keeps_bind _ untouched_trans); [|intros ?; apply IH].
    unfold process_file, compare_files. repeat untouched_step.
Qed.

Lemma process_files_adds P Q env repo_name dry_run rules acc :
  keeps (adds P Q) (process_files env repo_name dry_run rules acc).
Proof.
  apply adds_same_events. intros w.
  destruct (process_files_spec env repo_name dry_run rules acc w)
    as (_ & _ & Hn & Hg & _).
  split; assumption.
Qed.

(** X15. A dry run of [sync_repository] sends no request, never sleeps,
    writes no file, and the only git command it can run is one clone of the
    upstream repository; in particular it creates no fork, no branch and no
    pull request. *)
Theorem X15_dry_run_only_clones_upstream (env : Env) org repo_name fork_owner
    config w :
  let w' := snd (sync_repository env org repo_name fork_owner config true w) in
  w_net w' = w_net w
  /\ w_slept w' = w_slept w
  /\ w_writes w' = w_writes w
  /\ forall c, c ∈ w_git w' ->
       c ∈ w_git w
       \/ snd c = GitClone ("https://github.com/" ++ org ++ "/" ++ repo_name ++ ".git").
Proof.
  intros w'. subst w'.
  assert (keeps untouched (sync_repository env org repo_name fork_owner config true))
    as Hu.
  { unfold sync_repository, ensure_fork, acquire_working_tree, publish_changes.
    cbn [negb].
    repeat first [ simple apply process_files_dry_untouched | untouched_step ]. }
  assert (keeps (adds (fun cmd => cmd = GitClone ("https://github.com/" ++ org ++ "/"
                                                    ++ repo_name ++ ".git"))
                      (fun _ => False))
                (sync_repository env org repo_name fork_owner config true)) as Ha.
  { unfold sync_repository, ensure_fork, acquire_working_tree, publish_changes.
    cbn [negb].
    repeat first [ simple apply process_files_adds
                 | silent_leaf
                 | match goal with
                   | |- keeps _ (run_git _ _ _) => apply run_git_adds; reflexivity
                   end
                 | keeps_step (adds_refl (fun cmd => cmd = GitClone
                                   ("https://github.com/" ++ org ++ "/" ++ repo_name
                                      ++ ".git")) (fun _ : Request => False))
                              (adds_trans (fun cmd => cmd = GitClone
                                   ("https://github.com/" ++ org ++ "/" ++ repo_name
                                      ++ ".git")) (fun _ : Request => False)) ]. }
  destruct (Hu w) as (Hn & Hs & Hw). destruct (Ha w) as [Hg _].
  repeat split; assumption.
Qed.

(** ** How [main] can end *)







(** ** The gateway's answers *)

(** X18. [github_api_request] never lets a [RequestException] through: a
    transport failure of an allow-listed request comes back as status 500
    with the error text.  It never retries: a call adds no request or exactly
    the one it was asked for. *)
Theorem X18_gateway_absorbs_transport_failures (env : Env) endpoint method data w :
  let rq := {| rq_method := method; rq_url := endpoint; rq_json := data |} in
  let r := github_api_request env endpoint method data w in
  (forall msg, fst r <> Raise (RequestException msg))
  /\ (w_net (snd r) = w_net w \/ w_net (snd r) = rq :: w_net w)
  /\ (forall msg,
        validate_github_api_request endpoint method = true ->
        e_http env rq = Err (RequestException msg) ->
        fst r = Ret (500%Z, [("error", msg)]) /\ w_net (snd r) = rq :: w_net w).
Proof.
  cbv zeta. unfold github_api_request.
  destruct (validate_github_api_request endpoint method); cbn [negb].
  - unfold try_except, bind, requests_request, print, ret.
    destruct (e_http env _) as [resp|[ | |m| |n]]; cbn;
      (split; [intros ?; discriminate|]); (split; [auto|]);
      intros ? _ H; try discriminate H.
    injection H as <-. split; reflexivity.
  - cbn. split; [intros ?; discriminate|]. split; [auto|].
    intros ? Hf. discriminate Hf.
Qed.

(** ** The manifest *)

Lemma assoc_get_absent {V} (d : list (string * V)) key :
  (forall v, (key, v) ∉ d) -> assoc_get d key = None.
Proof.
  induction d as [|[k v] d IH]; intros Hn; cbn [assoc_get]; [reflexivity|].
  destruct (String.eqb_spec k key) as [-> | Hne].
  - exfalso. apply (Hn v). apply list_elem_of_here.
  - apply IH. intros v' Hin. apply (Hn v'). apply list_elem_of_further. exact Hin.
Qed.

(** X19. A manifest without an [orgs] key, or whose [orgs] does not list the
    organisation, or whose entry for it has no [repos] key, yields the empty
    list: [extract_repositories] reports zero repositories and does not
    fail. *)
Theorem X19_manifest_without_repositories peribolos_data org w :
  orgs peribolos_data = None
  \/ (exists all_orgs,
        orgs peribolos_data = Some all_orgs
        /\ ((forall org_data, (org, org_data) ∉ all_orgs)
            \/ assoc_get all_orgs org = Some {| org_repos := None |})) ->
  extract_repositories peribolos_data org w
  = (Ret [], snd (print (LogFoundRepositories 0 org) w)).
Proof.
  unfold extract_repositories.
  intros [-> | (all_orgs & -> & [Habs | Hnone])]; [reflexivity| |].
  - rewrite (assoc_get_absent all_orgs org Habs). reflexivity.
  - rewrite Hnone. reflexivity.
Qed.

Lemma X19_witness :
  extract_repositories (peribolos_of "other-org" ["a"; "b"]) "org" empty_world
  = (Ret [], snd (print (LogFoundRepositories 0 "org") empty_world)).
Proof.
  apply (X19_manifest_without_repositories (peribolos_of "other-org" ["a"; "b"])
           "org" empty_world).
  right. eexists. split; [reflexivity|]. left.
  intros org_data Hin. apply list_elem_of_singleton in Hin. discriminate Hin.
Defined.

(** ** Where the changed paths come from *)


(** ** No pull request without a pushed branch *)

Lemma pr_after_push_refl w : pr_after_push w w.
Proof. exists [], []. repeat split. left. constructor. Qed.

Lemma pushes_app_l a b : pushes a -> pushes (b ++ a)%list.
Proof. intros (c & br & H). exists c, br. apply elem_of_app. right. exact H. Qed.

Lemma pushes_app_r a b : pushes b -> pushes (b ++ a)%list.
Proof. intros (c & br & H). exists c, br. apply elem_of_app. left. exact H. Qed.

Lemma pr_after_push_trans w1 w2 w3 :
  pr_after_push w1 w2 -> pr_after_push w2 w3 -> pr_after_push w1 w3.
Proof.
  intros (dg1 & dn1 & G1 & N1 & H1) (dg2 & dn2 & G2 & N2 & H2).
  exists (dg2 ++ dg1)%list, (dn2 ++ dn1)%list.
  rewrite G2, G1, N2, N1, !app_assoc. split; [reflexivity|]. split; [reflexivity|].
  destruct H2 as [H2 | H2]; [|right; apply pushes_app_r; exact H2].
  destruct H1 as [H1 | H1]; [|right; apply pushes_app_l; exact H1].
  left. apply Forall_app. split; assumption.
Qed.

Lemma pr_after_push_same_events {A} (m : M A) :
  (forall w, w_git (snd (m w)) = w_git w /\ w_net (snd (m w)) = w_net w) ->
  keeps pr_after_push m.
Proof.
  intros H w. destruct (H w) as [Hg Hn]. exists [], [].
  rewrite Hg, Hn. repeat split. left. constructor.
Qed.

Lemma run_git_events env cwd cmd w :
  w_git (snd (run_git env cwd cmd w)) = (cwd, cmd) :: w_git w
  /\ w_net (snd (run_git env cwd cmd w)) = w_net w.
Proof. unfold run_git. destruct (e_git env cwd cmd (w_tree w)); split; reflexivity. Qed.

Lemma run_git_pr_after_push env cwd cmd : keeps pr_after_push (run_git env cwd cmd).
Proof.
  intros w. destruct (run_git_events env cwd cmd w) as [Hg Hn].
  exists [(cwd, cmd)], []. rewrite Hg, Hn. repeat split. left. constructor.
Qed.

Lemma requests_request_pr_after_push env rq :
  opens_pull_request rq = false -> keeps pr_after_push (requests_request env rq).
Proof.
  intros Hq w. exists [], [rq]. repeat split. left. repeat constructor. exact Hq.
Qed.

Lemma with_temporary_directory_pr_after_push {A} env (body : string -> M A) :
  (forall d, keeps pr_after_push (body d)) ->
  keeps pr_after_push (with_temporary_directory env body).
Proof.
  intros Hb w. unfold with_temporary_directory.
  destruct (e_mkdtemp env (w_tmp w)) as [d|e]; [|apply pr_after_push_refl].
  specialize (Hb d (count_tmpdir w)).
  destruct (body d (count_tmpdir w)) as [o w']. exact Hb.
Qed.

Ltac pap_leaf :=
  match goal with
  | |- keeps _ (print _) =>
      apply pr_after_push_same_events; intros ?; split; reflexivity
  | |- keeps _ (time_sleep _) =>
      apply pr_after_push_same_events; intros ?; split; reflexivity
  | |- keeps _ (os_path_exists _) =>
      apply pr_after_push_same_events; intros ?; split; reflexivity
  | |- keeps _ (run_git _ _ _) => apply run_git_pr_after_push
  | |- keeps _ (with_temporary_directory _ _) =>
      apply with_temporary_directory_pr_after_push; intros ?
  end.

Ltac pap_step := first [ pap_leaf | keeps_step pr_after_push_refl pr_after_push_trans ].

Lemma github_api_request_pr_after_push env endpoint method data :
  opens_pull_request {| rq_method := method; rq_url := endpoint; rq_json := data |}
  = false ->
  keeps pr_after_push (github_api_request env endpoint method data).
Proof.
  intros Hq. unfold github_api_request.
  repeat first [ simple apply requests_request_pr_after_push; exact Hq | pap_step ].
Qed.

Lemma forks_request_is_no_pull_request org repo_name data :
  opens_pull_request
    {| rq_method := "POST";
       rq_url := GITHUB_API ++ "/repos/" ++ org ++ "/" ++ repo_name ++ "/forks";
       rq_json := data |} = false.
Proof.
  unfold opens_pull_request. cbn [rq_method rq_url].
  replace (GITHUB_API ++ "/repos/" ++ org ++ "/" ++ repo_name ++ "/forks")
    with ((GITHUB_API ++ "/repos/" ++ org ++ "/" ++ repo_name) ++ "/forks")
    by (rewrite !string_append_assoc; reflexivity).
  rewrite ends_with_other_suffix; [reflexivity | reflexivity | discriminate].
Qed.

Lemma process_files_pr_after_push env repo_name dry_run rules acc :
  keeps pr_after_push (process_files env repo_name dry_run rules acc).
Proof.
  apply pr_after_push_same_events. intros w.
  destruct (process_files_spec env repo_name dry_run rules acc w)
    as (_ & _ & Hn & Hg & _).
  split; assumption.
Qed.

Lemma git_add_each_events env repo_path files : forall w,
  exists dg,
    w_git (snd (git_add_each env repo_path files w)) = (dg ++ w_git w)%list
    /\ w_net (snd (git_add_each env repo_path files w)) = w_net w.
Proof.
  induction files as [|f rest IH]; intros w; cbn [git_add_each].
  { exists []. split; reflexivity. }
  unfold bind.
  destruct (run_git_events env repo_path (GitAdd f) w) as [G N].
  destruct (run_git env repo_path (GitAdd f) w) as [[[]|e|c] w1]; cbn [snd] in *.
  - destruct (IH w1) as (dg & G' & N').
    exists (dg ++ [(repo_path, GitAdd f)])%list.
    rewrite G', N', G, N, <- app_assoc. split; reflexivity.
  - exists [(repo_path, GitAdd f)]. split; assumption.
  - exists [(repo_path, GitAdd f)]. split; assumption.
Qed.

Ltac stop_here T N :=
  cbn [fst snd print w_git w_net];
  eexists; split; [exact T | split; [exact N | intros Hx; discriminate Hx]].

(** When [create_branch_and_commit] returns [True] the push was run. *)
Lemma create_branch_and_commit_pushed env repo_path branch_name files message w :
  let r := create_branch_and_commit env repo_path branch_name files message w in
  exists dg,
    w_git (snd r) = (dg ++ w_git w)%list
    /\ w_net (snd r) = w_net w
    /\ (fst r = Ret true -> pushes dg).
Proof.
  cbv zeta. unfold create_branch_and_commit, try_except, bind.
  destruct (run_git_events env repo_path (GitCheckoutNew branch_name) w) as [G1 N1].
  destruct (run_git env repo_path (GitCheckoutNew branch_name) w)
    as [[[]|e|c] w1]; cbn [snd] in G1, N1.
  2: { change (w_git w1 = [(repo_path, GitCheckoutNew branch_name)] ++ w_git w)%list
         in G1. destruct e; stop_here G1 N1. }
  2: { change (w_git w1 = [(repo_path, GitCheckoutNew branch_name)] ++ w_git w)%list
         in G1. stop_here G1 N1. }
  destruct (git_add_each_events env repo_path files w1) as (dg2 & G2 & N2).
  destruct (git_add_each env repo_path files w1) as [[[]|e|c] w2]; cbn [snd] in G2, N2.
  all: assert (w_git w2 = (dg2 ++ [(repo_path, GitCheckoutNew branch_name)])
                            ++ w_git w)%list as T2
         by (rewrite G2, G1, <- app_assoc; reflexivity).
  all: assert (w_net w2 = w_net w) as M2 by congruence.
  2: { destruct e; stop_here T2 M2. }
  2: { stop_here T2 M2. }
  destruct (run_git_events env repo_path (GitCommit message) w2) as [G3 N3].
  destruct (run_git env repo_path (GitCommit message) w2)
    as [[[]|e|c] w3]; cbn [snd] in G3, N3.
  all: assert (w_git w3 = ((repo_path, GitCommit message)
                           :: dg2 ++ [(repo_path, GitCheckoutNew branch_name)])
                            ++ w_git w)%list as T3
         by (rewrite G3, T2; reflexivity).
  all: assert (w_net w3 = w_net w) as M3 by congruence.
  2: { destruct e; stop_here T3 M3. }
  2: { stop_here T3 M3. }
  destruct (run_git_events env repo_path (GitPush "origin" branch_name) w3)
    as [G4 N4].
  destruct (run_git env repo_path (GitPush "origin" branch_name) w3)
    as [[[]|e|c] w4]; cbn [snd] in G4, N4.
  all: assert (w_git w4 = ((repo_path, GitPush "origin" branch_name)
                           :: (repo_path, GitCommit message)
                           :: dg2 ++ [(repo_path, GitCheckoutNew branch_name)])
                            ++ w_git w)%list as T4
         by (rewrite G4, T3; reflexivity).
  all: assert (w_net w4 = w_net w) as M4 by congruence.
  2: { destruct e; stop_here T4 M4. }
  2: { stop_here T4 M4. }
  cbn [fst snd print ret w_git w_net].
  eexists. split; [exact T4|]. split; [exact M4|].
  intros _. exists repo_path, branch_name. apply list_elem_of_here.
Qed.

Lemma github_api_request_net env endpoint method data w :
  let r := github_api_request env endpoint method data w in
  exists dn, w_net (snd r) = (dn ++ w_net w)%list.
Proof.
  cbv zeta. unfold github_api_request.
  destruct (validate_github_api_request endpoint method); cbn [negb].
  - unfold try_except, bind, requests_request, print, ret.
    destruct (e_http env _) as [resp|[ | |m| |n]]; cbn;
      eexists [_]; reflexivity.
  - exists []. reflexivity.
Qed.

Lemma create_pull_request_events env org repo_name fork_owner branch title body base w :
  let r := create_pull_request env org repo_name fork_owner branch title body base w in
  w_git (snd r) = w_git w /\ exists dn, w_net (snd r) = (dn ++ w_net w)%list.
Proof.
  cbv zeta. unfold create_pull_request, bind.
  match goal with
  | |- context [github_api_request env ?e ?m ?d w] =>
      destruct (github_api_request_same_checkout env e m d w) as (Hg & _);
      destruct (github_api_request_net env e m d w) as (dn & Hn);
      destruct (github_api_request env e m d w) as [[[status data]|x|c] w1]
  end; cbn [snd] in *; try (split; [exact Hg | exists dn; exact Hn]).
  destruct (status =? 201)%Z; cbn; (split; [exact Hg | exists dn; exact Hn]).
Qed.

Lemma publish_changes_pr_after_push env org repo_name fork_owner repo_path dry_run
    files :
  keeps pr_after_push
        (publish_changes env org repo_name fork_owner repo_path dry_run files).
Proof.
  unfold publish_changes. destruct files as [|f files].
  { repeat pap_step. }
  destruct dry_run.
  { repeat pap_step. }
  intros w. rewrite bind_print. unfold bind at 1.
  set (w0 := snd (print LogCreatingBranch w)).
  assert (w_git w0 = w_git w /\ w_net w0 = w_net w) as [G0 N0] by (split; reflexivity).
  match goal with
  | |- context [create_branch_and_commit env ?p ?b ?fs ?m w0] =>
      destruct (create_branch_and_commit_pushed env p b fs m w0)
        as (dg & G & N & Hp);
      destruct (create_branch_and_commit env p b fs m w0) as [[pushed|x|c] w1]
  end; cbn [fst snd] in *.
  - destruct pushed; cbn [negb].
    + rewrite bind_print.
      match goal with
      | |- context [create_pull_request env ?a ?b ?c ?d ?e ?f ?g ?x] =>
          destruct (create_pull_request_events env a b c d e f g x) as (Hg & dn & Hn)
      end.
      exists dg, dn. rewrite Hg, Hn. cbn [print snd w_git w_net].
      rewrite G, N, G0, N0. repeat split. right. apply Hp. reflexivity.
    + exists dg, []. cbn [ret snd]. rewrite G, N, G0, N0. repeat split.
      left. constructor.
  - exists dg, []. rewrite G, N, G0, N0. repeat split. left. constructor.
  - exists dg, []. rewrite G, N, G0, N0. repeat split. left. constructor.
Qed.

(** X21. Over one call of [sync_repository] git commands and requests are
    only added, and a pull request is among the added requests only if a push
    to origin is among the added commands: no pull request is opened for a
    branch that was not pushed. *)
Theorem X21_pull_request_only_after_push (env : Env) org repo_name fork_owner
    config dry_run w :
  let w' := snd (sync_repository env org repo_name fork_owner config dry_run w) in
  exists dg dn,
    w_git w' = (dg ++ w_git w)%list
    /\ w_net w' = (dn ++ w_net w)%list
    /\ (Forall (fun rq => opens_pull_request rq = false) dn
        \/ exists cwd branch, (cwd, GitPush "origin" branch) ∈ dg).
Proof.
  assert (keeps pr_after_push
            (sync_repository env org repo_name fork_owner config dry_run)) as H.
  { unfold sync_repository, ensure_fork, check_fork_exists, create_fork,
      acquire_working_tree, setup_git_credentials.
    repeat first
      [ simple apply publish_changes_pr_after_push
      | simple apply process_files_pr_after_push
      | match goal with
        | |- keeps _ (github_api_request _ _ "GET" _) =>
            apply github_api_request_pr_after_push; reflexivity
        | |- keeps _ (github_api_request _ _ "POST" _) =>
            apply github_api_request_pr_after_push;
            apply forks_request_is_no_pull_request
        end
      | pap_step ]. }
  exact (H w).
Qed.
